(** * loco_math: scalar vector kernels and the Matrix4 operator layer

    A shallow embedding of
      - [include/math/impl/vec4_t_scalar_impl.hpp]   (namespace math::scalar),
      - the two-component sibling of that file      (namespace tiny::math::scalar),
      - [include/loco/math/mat4_t_impl.hpp]          (namespace loco::math).

    The element type [T] of the C++ templates is IEEE binary32 or binary64.
    Values of [T] are [spec_float]s and the arithmetic is the one of
    [SpecFloat] (round to nearest, ties to even, a single NaN), instantiated
    at the precision of [T].  Expressions are evaluated in the precision of
    [T], without contraction into fused operations. *)

From Stdlib Require Import ZArith Bool Lia SpecFloat String Ascii.
From stdpp Require Import base list.

Local Open Scope Z_scope.

(** ** The element type *)

(** [IsScalar<T>] admits exactly [float] and [double]. *)
Inductive scalar_t := Float32 | Float64.

Definition prec_of (ty : scalar_t) : Z :=
  match ty with Float32 => 24 | Float64 => 53 end.

Definition emax_of (ty : scalar_t) : Z :=
  match ty with Float32 => 128 | Float64 => 1024 end.

#[global] Instance spec_float_inhabited : Inhabited spec_float :=
  populate S754_nan.

Module Fp.

Definition add (ty : scalar_t) := SFadd (prec_of ty) (emax_of ty).
Definition sub (ty : scalar_t) := SFsub (prec_of ty) (emax_of ty).
Definition mul (ty : scalar_t) := SFmul (prec_of ty) (emax_of ty).
Definition div (ty : scalar_t) := SFdiv (prec_of ty) (emax_of ty).
Definition sqrt (ty : scalar_t) := SFsqrt (prec_of ty) (emax_of ty).

(** [std::abs] *)
Definition abs (x : spec_float) : spec_float := SFabs x.

(** [a >= b]: false as soon as one side is NaN. *)
Definition ge (a b : spec_float) : bool :=
  match SFcompare a b with
  | Some Gt | Some Eq => true
  | _ => false
  end.

(** [a < b]: false as soon as one side is NaN. *)
Definition lt (a b : spec_float) : bool := SFltb a b.

Definition is_nan (x : spec_float) : bool :=
  match x with S754_nan => true | _ => false end.

Definition is_zero (x : spec_float) : bool :=
  match x with S754_zero _ => true | _ => false end.

(** [std::isfinite] *)
Definition is_finite (x : spec_float) : bool :=
  match x with
  | S754_zero _ | S754_finite _ _ _ => true
  | _ => false
  end.

(** A value is a value of [T] when its mantissa and exponent fit. *)
Definition valid (ty : scalar_t) (x : spec_float) : bool :=
  valid_binary (prec_of ty) (emax_of ty) x.

(** The literals [0.0] and [1.0] of type [double]. *)
Definition zero : spec_float := S754_zero false.
Definition one : spec_float := S754_finite false 4503599627370496 (-52).

(** [static_cast<T>(x)] for [x] a [double]: the identity at [double],
    rounding to the nearest [float] otherwise. *)
Definition static_cast (ty : scalar_t) (x : spec_float) : spec_float :=
  match ty with
  | Float64 => x
  | Float32 =>
      match x with
      | S754_finite s m e => binary_round (prec_of Float32) (emax_of Float32) s m e
      | _ => x
      end
  end.

End Fp.

(** ** Buffers and loops *)

(** [std::array<T, N>]: the kernels only index below [N]; reading past the
    end of the list yields the placeholder of [spec_float_inhabited], and
    writing there does nothing. *)
Abbreviation Buffer := (list spec_float).

(** [for (i = 0; i < n; ++i) body] over a state [S]. *)
Definition for_range {S : Type} (n : nat) (body : nat -> S -> S) (s : S) : S :=
  fold_left (fun acc i => body i acc) (seq 0 n) s.

(** ** The scalar kernels

    The two- and four-component files are the same text up to the size
    constant and the spelling of the tolerance, so the loops are written
    once over [VECTOR_SIZE]. *)
Section ScalarKernels.

Variable ty : scalar_t.
Variable VECTOR_SIZE : nat.

Definition kernel_add (dst lhs rhs : Buffer) : Buffer :=
  for_range VECTOR_SIZE
    (fun i dst => <[i := Fp.add ty (lhs !!! i) (rhs !!! i)]> dst) dst.

Definition kernel_sub (dst lhs rhs : Buffer) : Buffer :=
  for_range VECTOR_SIZE
    (fun i dst => <[i := Fp.sub ty (lhs !!! i) (rhs !!! i)]> dst) dst.

Definition kernel_scale (dst : Buffer) (scale : spec_float) (vec : Buffer)
  : Buffer :=
  for_range VECTOR_SIZE
    (fun i dst => <[i := Fp.mul ty scale (vec !!! i)]> dst) dst.

Definition kernel_hadamard (dst lhs rhs : Buffer) : Buffer :=
  for_range VECTOR_SIZE
    (fun i dst => <[i := Fp.mul ty (lhs !!! i) (rhs !!! i)]> dst) dst.

Definition kernel_length_square (vec : Buffer) : spec_float :=
  for_range VECTOR_SIZE
    (fun i accum => Fp.add ty accum (Fp.mul ty (vec !!! i) (vec !!! i)))
    (Fp.static_cast ty Fp.zero).

Definition kernel_normalize_in_place (vec : Buffer) : Buffer :=
  let length := Fp.sqrt ty (kernel_length_square vec) in
  for_range VECTOR_SIZE
    (fun i vec => <[i := Fp.div ty (vec !!! i) length]> vec) vec.

Definition kernel_dot (lhs rhs : Buffer) : spec_float :=
  for_range VECTOR_SIZE
    (fun i accum => Fp.add ty accum (Fp.mul ty (lhs !!! i) (rhs !!! i)))
    (Fp.static_cast ty Fp.zero).

(** The comparison loop leaves with [false] at the first index whose
    difference is at or beyond [eps]; [i] is the loop counter and [n] the
    number of iterations left. *)
Fixpoint compare_eq_from (eps : spec_float) (lhs rhs : Buffer) (i n : nat)
  : bool :=
  match n with
  | O => true
  | S n' =>
      if Fp.ge (Fp.abs (Fp.sub ty (lhs !!! i) (rhs !!! i))) eps
      then false
      else compare_eq_from eps lhs rhs (S i) n'
  end.

Definition kernel_compare_eq (eps : spec_float) (lhs rhs : Buffer) : bool :=
  compare_eq_from eps lhs rhs 0 VECTOR_SIZE.

End ScalarKernels.

(** ** Four components: namespace [math::scalar]

    The tolerance is the library constant [math::EPS], a [double] declared
    outside the files at hand and taken here as the parameter [EPS]; the
    comparison kernel narrows it with [static_cast<T>]. *)
Section Vec4.

Variable EPS : spec_float.
Variable ty : scalar_t.

Definition VECTOR_SIZE_4 : nat := 4.

Definition kernel_add_vec4 := kernel_add ty VECTOR_SIZE_4.
Definition kernel_sub_vec4 := kernel_sub ty VECTOR_SIZE_4.
Definition kernel_scale_vec4 := kernel_scale ty VECTOR_SIZE_4.
Definition kernel_hadamard_vec4 := kernel_hadamard ty VECTOR_SIZE_4.
Definition kernel_length_square_vec4 := kernel_length_square ty VECTOR_SIZE_4.
Definition kernel_normalize_in_place_vec4 :=
  kernel_normalize_in_place ty VECTOR_SIZE_4.
Definition kernel_dot_vec4 := kernel_dot ty VECTOR_SIZE_4.
Definition kernel_compare_eq_vec4 :=
  kernel_compare_eq ty VECTOR_SIZE_4 (Fp.static_cast ty EPS).

End Vec4.

(** ** Two components: namespace [tiny::math::scalar]

    Here the tolerance is spelled [tiny::math::EPS<T>], a variable template
    declared outside the files at hand: the parameter [EPS_T]. *)
Section Vec2.

Variable EPS_T : scalar_t -> spec_float.
Variable ty : scalar_t.

Definition VECTOR_NDIM_2 : nat := 2.

Definition kernel_add_vec2 := kernel_add ty VECTOR_NDIM_2.
Definition kernel_sub_vec2 := kernel_sub ty VECTOR_NDIM_2.
Definition kernel_scale_vec2 := kernel_scale ty VECTOR_NDIM_2.
Definition kernel_hadamard_vec2 := kernel_hadamard ty VECTOR_NDIM_2.
Definition kernel_length_square_vec2 := kernel_length_square ty VECTOR_NDIM_2.
Definition kernel_normalize_in_place_vec2 :=
  kernel_normalize_in_place ty VECTOR_NDIM_2.
Definition kernel_dot_vec2 := kernel_dot ty VECTOR_NDIM_2.
Definition kernel_compare_eq_vec2 :=
  kernel_compare_eq ty VECTOR_NDIM_2 (EPS_T ty).

End Vec2.

(** ** Matrix4 *)

(** Modelled from the spec: the class [Matrix4<T>] of [loco/math/mat4_t.hpp]
    is not among the files at hand.  It owns a contiguous buffer of sixteen
    elements in column-major order, element (row, col) at offset
    [col * 4 + row]; the default constructor fills it with zeros. *)
Record Matrix4 := { elements : Buffer }.

Definition BUFFER_SIZE : nat := 16.

Definition Matrix4_default : Matrix4 :=
  {| elements := replicate BUFFER_SIZE Fp.zero |}.

(** [mat(row, col)] read and written. *)
Definition mat_get (m : Matrix4) (row col : nat) : spec_float :=
  elements m !!! (col * 4 + row)%nat.

Definition mat_set (m : Matrix4) (row col : nat) (v : spec_float) : Matrix4 :=
  {| elements := <[(col * 4 + row)%nat := v]> (elements m) |}.

(** Modelled from the spec: [tiny::math::EPS<T>] is declared outside the
    files at hand; by the spec it has the nominal value of the shared
    tolerance whatever the precision of [T]. *)
Definition EPS_T_spec (EPS : spec_float) (ty : scalar_t) : spec_float :=
  Fp.static_cast ty EPS.

(** The kernels one backend provides for the operators below.  Their
    bodies live in [mat4_t_scalar_impl.hpp], [mat4_t_sse_impl.hpp] and
    [mat4_t_avx_impl.hpp], none of which is among the files at hand, so the
    operator layer is parameterised by them.  Each takes [T], the
    destination buffer and its operands, and returns the destination. *)
Record mat4_kernels := {
  kernel_add_mat4 : scalar_t -> Buffer -> Buffer -> Buffer -> Buffer;
  kernel_sub_mat4 : scalar_t -> Buffer -> Buffer -> Buffer -> Buffer;
  kernel_scale_mat4 : scalar_t -> Buffer -> spec_float -> Buffer -> Buffer;
  kernel_matmul_mat4 : scalar_t -> Buffer -> Buffer -> Buffer -> Buffer;
  kernel_matmul_vec_mat4 : scalar_t -> Buffer -> Buffer -> Buffer -> Buffer;
  kernel_hadamard_mat4 : scalar_t -> Buffer -> Buffer -> Buffer -> Buffer
}.

(** The kernels only the scalar backend provides. *)
Record mat4_scalar_kernels := {
  kernel_transpose_inplace_mat4 : scalar_t -> Buffer -> Buffer;
  kernel_trace_mat4 : scalar_t -> Buffer -> spec_float;
  kernel_determinant_mat4 : scalar_t -> Buffer -> spec_float;
  kernel_inverse_mat4 : scalar_t -> Buffer -> Buffer -> Buffer;
  kernel_compare_eq_mat4 : scalar_t -> Buffer -> Buffer -> bool
}.

(** The two preprocessor symbols the operator layer tests. *)
Record build_config := {
  LOCOMATH_AVX_ENABLED : bool;
  LOCOMATH_SSE_ENABLED : bool
}.

(** The implementation headers [mat4_t_impl.hpp] includes. *)
Record mat4_backends := {
  avx : mat4_kernels;
  sse : mat4_kernels;
  scalar : mat4_kernels;
  scalar_only : mat4_scalar_kernels
}.

(** The operator layer is compiled against the backends [impl] under a
    configuration [cfg], for an element type [ty]. *)
Section Mat4Operators.

Variable impl : mat4_backends.

(** [#if defined(LOCOMATH_AVX_ENABLED) ... #elif
    defined(LOCOMATH_SSE_ENABLED) ... #else ... #endif] *)
Definition select {K : Type} (cfg : build_config)
    (kernel : mat4_kernels -> K) : K :=
  if LOCOMATH_AVX_ENABLED cfg then kernel (avx impl)
  else if LOCOMATH_SSE_ENABLED cfg then kernel (sse impl)
  else kernel (scalar impl).

Definition transpose (cfg : build_config) (ty : scalar_t) (mat : Matrix4)
  : Matrix4 :=
  let dst := mat in
  {| elements :=
      kernel_transpose_inplace_mat4 (scalar_only impl) ty (elements dst) |}.

Definition transposeInPlace (cfg : build_config) (ty : scalar_t)
    (mat : Matrix4) : Matrix4 :=
  {| elements :=
      kernel_transpose_inplace_mat4 (scalar_only impl) ty (elements mat) |}.

Definition trace (cfg : build_config) (ty : scalar_t) (mat : Matrix4)
  : spec_float :=
  kernel_trace_mat4 (scalar_only impl) ty (elements mat).

Definition determinant (cfg : build_config) (ty : scalar_t) (mat : Matrix4)
  : spec_float :=
  kernel_determinant_mat4 (scalar_only impl) ty (elements mat).

Definition inverse (cfg : build_config) (ty : scalar_t) (mat : Matrix4)
  : Matrix4 :=
  let dst := Matrix4_default in
  {| elements :=
      kernel_inverse_mat4 (scalar_only impl) ty (elements dst)
        (elements mat) |}.

(** [operator+(Matrix4, Matrix4)] *)
Definition operator_add (cfg : build_config) (ty : scalar_t)
    (lhs rhs : Matrix4) : Matrix4 :=
  let dst := Matrix4_default in
  {| elements :=
      select cfg kernel_add_mat4 ty (elements dst) (elements lhs)
        (elements rhs) |}.

(** [operator-(Matrix4, Matrix4)] *)
Definition operator_sub (cfg : build_config) (ty : scalar_t)
    (lhs rhs : Matrix4) : Matrix4 :=
  let dst := Matrix4_default in
  {| elements :=
      select cfg kernel_sub_mat4 ty (elements dst) (elements lhs)
        (elements rhs) |}.

(** [operator*(double, Matrix4)] *)
Definition operator_mul_scalar_mat (cfg : build_config) (ty : scalar_t)
    (scale : spec_float) (mat : Matrix4) : Matrix4 :=
  let dst := Matrix4_default in
  {| elements :=
      select cfg kernel_scale_mat4 ty (elements dst)
        (Fp.static_cast ty scale) (elements mat) |}.

(** [operator*(Matrix4, double)] *)
Definition operator_mul_mat_scalar (cfg : build_config) (ty : scalar_t)
    (mat : Matrix4) (scale : spec_float) : Matrix4 :=
  let dst := Matrix4_default in
  {| elements :=
      select cfg kernel_scale_mat4 ty (elements dst)
        (Fp.static_cast ty scale) (elements mat) |}.

(** [operator*(Matrix4, Matrix4)] *)
Definition operator_mul_mat_mat (cfg : build_config) (ty : scalar_t)
    (lhs rhs : Matrix4) : Matrix4 :=
  let dst := Matrix4_default in
  {| elements :=
      select cfg kernel_matmul_mat4 ty (elements dst) (elements lhs)
        (elements rhs) |}.

(** [operator*(Matrix4, Vector4)]; a [Vector4] is its buffer. *)
Definition operator_mul_mat_vec (cfg : build_config) (ty : scalar_t)
    (lhs_mat : Matrix4) (rhs_vec : Buffer) : Buffer :=
  let dst := replicate VECTOR_SIZE_4 Fp.zero in
  select cfg kernel_matmul_vec_mat4 ty dst (elements lhs_mat) rhs_vec.

Definition hadamard (cfg : build_config) (ty : scalar_t)
    (lhs rhs : Matrix4) : Matrix4 :=
  let dst := Matrix4_default in
  {| elements :=
      select cfg kernel_hadamard_mat4 ty (elements dst) (elements lhs)
        (elements rhs) |}.

(** [operator==(Matrix4, Matrix4)] *)
Definition operator_eq (cfg : build_config) (ty : scalar_t)
    (lhs rhs : Matrix4) : bool :=
  kernel_compare_eq_mat4 (scalar_only impl) ty (elements lhs) (elements rhs).

(** [operator!=(Matrix4, Matrix4)] *)
Definition operator_neq (cfg : build_config) (ty : scalar_t)
    (lhs rhs : Matrix4) : bool :=
  negb
    (kernel_compare_eq_mat4 (scalar_only impl) ty (elements lhs)
       (elements rhs)).

End Mat4Operators.

(** ** Stream extraction *)

(** A [std::istream] seen at the level of whitespace-separated tokens: what
    is still to be read, and the [failbit] of the stream state. *)
Record istream := { tokens : list string; failbit : bool }.

(** The sixteen assignments [dst(row, col) = mat[k]] of [operator>>], in
    the order they are written. *)
Definition rshift_assignments : list (nat * nat * nat) :=
  [ (0, 0, 0); (0, 1, 1); (0, 2, 2); (0, 3, 3);
    (1, 0, 4); (1, 1, 5); (1, 2, 6); (1, 3, 7);
    (2, 0, 8); (2, 1, 9); (2, 2, 10); (2, 3, 11);
    (3, 0, 12); (3, 1, 13); (3, 2, 14); (3, 3, 15) ]%nat.

Section StreamExtraction.

(** The numeric conversion of one token to a [T] ([std::num_get]), which
    belongs to the C++ library: [None] when the token is no number. *)
Variable parse_token : scalar_t -> string -> option spec_float.
Variable ty : scalar_t.

(** [input_stream >> value].  On a stream that has already failed nothing
    is read and [value] is kept; so it is at the end of the input, where
    the stream fails; a token that is no number makes the stream fail and
    stores zero; the offending token is left in the stream. *)
Definition extract (s : istream) (value : spec_float)
  : istream * spec_float :=
  if failbit s then (s, value)
  else
    match tokens s with
    | [] => ({| tokens := []; failbit := true |}, value)
    | t :: rest =>
        match parse_token ty t with
        | Some v => ({| tokens := rest; failbit := false |}, v)
        | None => ({| tokens := t :: rest; failbit := true |}, Fp.zero)
        end
    end.

(** One link of the chain, [... >> mat[k]]. *)
Definition read_body (k : nat) (st : istream * Buffer) : istream * Buffer :=
  let '(s, mat) := st in
  let '(s', v) := extract s (mat !!! k) in (s', <[k := v]> mat).

(** [input_stream >> mat[0] >> ... >> mat[15]] *)
Definition extract_all (s : istream) (mat : Buffer) : istream * Buffer :=
  for_range BUFFER_SIZE read_body (s, mat).

(** [operator>>(std::istream&, Matrix4<T>&)].  The local array [mat] is
    not initialised in the source: [indeterminate k] is whatever slot [k]
    holds before the extraction.  [setf(skipws)] only affects how tokens
    are delimited. *)
Definition operator_rshift (indeterminate : nat -> spec_float)
    (input_stream : istream) (dst : Matrix4) : istream * Matrix4 :=
  let mat := map indeterminate (seq 0 BUFFER_SIZE) in
  let '(input_stream, mat) := extract_all input_stream mat in
  if negb (failbit input_stream) then
    (input_stream,
     fold_left (fun dst '(row, col, k) => mat_set dst row col (mat !!! k))
       rshift_assignments dst)
  else (input_stream, dst).

(** What the next [n] tokens denote, when each of them is a number. *)
Fixpoint parse_tokens (n : nat) (toks : list string)
  : option (list spec_float) :=
  match n with
  | O => Some []
  | S n' =>
      match toks with
      | [] => None
      | t :: rest =>
          match parse_token ty t with
          | None => None
          | Some v =>
              match parse_tokens n' rest with
              | None => None
              | Some vs => Some (v :: vs)
              end
          end
      end
  end.

(** The sixteen values a stream offers, when it is in a good state and
    its next sixteen tokens all parse. *)
Definition parse_sixteen (s : istream) : option (list spec_float) :=
  if failbit s then None else parse_tokens BUFFER_SIZE (tokens s).

End StreamExtraction.

(** A numeric conversion for tokens that are plain decimal naturals, the
    part of [std::num_get] the examples need. *)
Fixpoint decimal_value (acc : N) (s : string) : option N :=
  match s with
  | EmptyString => Some acc
  | String c rest =>
      let d := N_of_ascii c in
      if ((48 <=? d) && (d <=? 57))%N
      then decimal_value (acc * 10 + (d - 48))%N rest
      else None
  end.

Definition parse_decimal_token (ty : scalar_t) (t : string)
  : option spec_float :=
  match t with
  | EmptyString => None
  | _ =>
      match decimal_value 0%N t with
      | Some n =>
          Some (binary_normalize (prec_of ty) (emax_of ty) (Z.of_N n) 0 false)
      | None => None
      end
  end.

(** ** Componentwise tolerance, as a property of two buffers *)

(** The difference the comparison kernel forms at index [i]. *)
Definition abs_diff (ty : scalar_t) (lhs rhs : Buffer) (i : nat) : spec_float :=
  Fp.abs (Fp.sub ty (lhs !!! i) (rhs !!! i)).

(** No index below [n] is at or beyond the tolerance. *)
Definition none_beyond (ty : scalar_t) (eps : spec_float) (n : nat)
    (lhs rhs : Buffer) : Prop :=
  forall i, (i < n)%nat -> Fp.ge (abs_diff ty lhs rhs i) eps = false.

(** Every index below [n] is strictly within the tolerance. *)
Definition all_strictly_within (ty : scalar_t) (eps : spec_float) (n : nat)
    (lhs rhs : Buffer) : Prop :=
  forall i, (i < n)%nat -> Fp.lt (abs_diff ty lhs rhs i) eps = true.

(** Every index below [n] has a NaN difference or is strictly within the
    tolerance. *)
Definition all_nan_or_within (ty : scalar_t) (eps : spec_float) (n : nat)
    (lhs rhs : Buffer) : Prop :=
  forall i, (i < n)%nat ->
    Fp.is_nan (abs_diff ty lhs rhs i) = true
    \/ Fp.lt (abs_diff ty lhs rhs i) eps = true.

(** The components of a buffer are finite values of [T]. *)
Definition finite_values (ty : scalar_t) (a : Buffer) : Prop :=
  Forall (fun c => Fp.is_finite c = true /\ Fp.valid ty c = true) a.

(** ** Example data *)

(** A positive tolerance for the examples: the [double] nearest to 1e-6. *)
Definition EPS_nominal : spec_float := S754_finite false 4722366482869645 (-72).

(** (+inf, 0, 0, 0) *)
Definition inf_then_zeros : Buffer :=
  [S754_infinity false; Fp.zero; Fp.zero; Fp.zero].

(** (1, 2, 3, 4) as [double]s *)
Definition one_two_three_four : Buffer :=
  [S754_finite false 4503599627370496 (-52);
   S754_finite false 4503599627370496 (-51);
   S754_finite false 6755399441055744 (-51);
   S754_finite false 4503599627370496 (-50)].

(** (1, 2) as [double]s *)
Definition one_two : Buffer :=
  [S754_finite false 4503599627370496 (-52);
   S754_finite false 4503599627370496 (-51)].

(** (NaN, -inf, 1, -0) as [float]s *)
Definition nan_inf_one_zero : Buffer :=
  [S754_nan; S754_infinity true; S754_finite false 8388608 (-23);
   S754_zero true].

(** The input ["1 2 ... 16"] on a stream in a good state. *)
Definition sixteen_tokens : istream :=
  {| tokens := ["1"; "2"; "3"; "4"; "5"; "6"; "7"; "8"; "9"; "10"; "11"; "12";
                "13"; "14"; "15"; "16"]%string;
     failbit := false |}.

(** ** Further notions for the properties *)

(** The sign bit of a value is clear, or the value is NaN. *)
Definition not_negative (x : spec_float) : bool :=
  match x with
  | S754_nan => true
  | S754_zero s | S754_infinity s | S754_finite s _ _ => negb s
  end.

Definition is_inf (x : spec_float) : bool :=
  match x with S754_infinity _ => true | _ => false end.

(** The literal [-1.0] of type [double]. *)
Definition minus_one : spec_float := S754_finite true 4503599627370496 (-52).

(** Sixteen values in reading order (row after row), laid out in storage
    order: offset [j] holds row [j % 4], column [j / 4]. *)
Definition column_major (rows : Buffer) : Buffer :=
  map (fun j => rows !!! ((j mod 4) * 4 + j / 4)%nat) (seq 0 BUFFER_SIZE).

(** (NaN, NaN, NaN, NaN) *)
Definition all_nan : Buffer := replicate 4 S754_nan.

(** The input ["1 2 ... 16"] on a stream that has already failed. *)
Definition failed_stream : istream :=
  {| tokens := tokens sixteen_tokens; failbit := true |}.

(** The values of the tokens ["1"] to ["16"] as [float]s. *)
Definition sixteen_values : Buffer :=
  map (fun n => binary_normalize (prec_of Float32) (emax_of Float32)
                  (Z.of_nat n) 0 false)
    (seq 1 16).

(** The input ["1 2 ... 16 1 2 ... 16"] on a stream in a good state. *)
Definition thirty_two_tokens : istream :=
  {| tokens := tokens sixteen_tokens ++ tokens sixteen_tokens;
     failbit := false |}.

(** * Properties *)

(** ** Facts of the arithmetic *)

Lemma Fp_mul_comm ty x y : Fp.mul ty x y = Fp.mul ty y x.
Proof.
  unfold Fp.mul.
  destruct x as [sx|sx| |sx mx ex], y as [sy|sy| |sy my ey]; simpl;
    try reflexivity; try (rewrite (xorb_comm sx sy); reflexivity).
  rewrite (xorb_comm sx sy), (Pos.mul_comm mx my), (Z.add_comm ex ey).
  reflexivity.
Qed.

(** [x - x] is [+0] for a number and NaN for an infinity or a NaN. *)
Lemma Fp_abs_sub_diag ty x :
  Fp.abs (Fp.sub ty x x) = S754_zero false \/ Fp.abs (Fp.sub ty x x) = S754_nan.
Proof.
  unfold Fp.abs, Fp.sub.
  destruct x as [s|s| |s m e]; simpl.
  - left. destruct s; reflexivity.
  - right. destruct s; reflexivity.
  - right. reflexivity.
  - left. rewrite Z.sub_diag. reflexivity.
Qed.

Lemma Fp_ge_zero_pos eps :
  Fp.lt Fp.zero eps = true -> Fp.ge (S754_zero false) eps = false.
Proof.
  unfold Fp.lt, Fp.ge, Fp.zero, SFltb.
  destruct eps as [s|s| |s m e]; try destruct s; simpl; congruence.
Qed.

Lemma Fp_ge_nan eps : Fp.ge S754_nan eps = false.
Proof. reflexivity. Qed.

Lemma Fp_ge_abs_sub_diag ty eps x :
  Fp.lt Fp.zero eps = true -> Fp.ge (Fp.abs (Fp.sub ty x x)) eps = false.
Proof.
  intros Hpos. destruct (Fp_abs_sub_diag ty x) as [-> | ->].
  - now apply Fp_ge_zero_pos.
  - apply Fp_ge_nan.
Qed.

(** Against a tolerance that is a number, "not at or beyond" is "NaN or
    strictly below". *)
Lemma Fp_ge_false_iff d eps :
  Fp.is_nan eps = false ->
  Fp.ge d eps = false <-> (Fp.is_nan d = true \/ Fp.lt d eps = true).
Proof.
  unfold Fp.ge, Fp.lt, SFltb.
  destruct d as [s|s| |s m e], eps as [s'|s'| |s' m' e']; simpl; intros Hn;
    try discriminate Hn;
    repeat match goal with
      | |- context [match ?b with true => _ | false => _ end] => destruct b
      | |- context [match ?c with Eq => _ | Lt => _ | Gt => _ end] => destruct c
      end; intuition congruence.
Qed.

Section Rounding.

Variables prec emax : Z.

Lemma iter_pos_iter {A} (f : A -> A) k x :
  SpecFloat.iter_pos f k x = Pos.iter f x k.
Proof.
  revert x. induction k as [k IH|k IH|]; intros x; simpl.
  - rewrite !IH. rewrite <- Pos.iter_swap. f_equal.
    rewrite <- Pos.iter_swap. reflexivity.
  - rewrite !IH. reflexivity.
  - reflexivity.
Qed.

Lemma digits2_pos_shift m k :
  digits2_pos (Pos.iter xO m k) = (digits2_pos m + k)%positive.
Proof.
  induction k as [|k IH] using Pos.peano_ind.
  - simpl. now rewrite Pos.add_1_r.
  - rewrite Pos.iter_succ. simpl.
    change (PosDef.Pos.succ ?x) with (Pos.succ x). rewrite IH. lia.
Qed.

Lemma shr_shift m k :
  SpecFloat.iter_pos shr_1 k
    {| shr_m := Zpos (Pos.iter xO m k); shr_r := false; shr_s := false |}
  = {| shr_m := Zpos m; shr_r := false; shr_s := false |}.
Proof.
  rewrite iter_pos_iter.
  induction k as [|k IH] using Pos.peano_ind.
  - reflexivity.
  - rewrite (Pos.iter_succ_r k _ shr_1), (Pos.iter_succ k _ xO).
    simpl. exact IH.
Qed.

(** Rounding a representable mantissa that was shifted left by [k] bits
    shifts it back without loss. *)
Lemma round_shifted s m e k :
  bounded prec emax m e = true ->
  binary_round_aux prec emax s (Zpos (Pos.iter xO m k)) (e - Zpos k) loc_Exact
  = S754_finite s m e.
Proof.
  intros Hb. apply andb_prop in Hb as [Hc He].
  unfold canonical_mantissa in Hc. apply Z.eqb_eq in Hc.
  unfold binary_round_aux, shr_fexp at 1, Zdigits2.
  rewrite digits2_pos_shift, Pos2Z.inj_add.
  replace (Z.pos (digits2_pos m) + Z.pos k + (e - Z.pos k))
    with (Z.pos (digits2_pos m) + e) by lia.
  rewrite Hc.
  replace (e - (e - Z.pos k)) with (Z.pos k) by lia.
  unfold shr, shr_record_of_loc. rewrite shr_shift.
  cbv [shr_m loc_of_shr_record round_nearest_even].
  unfold shr_fexp, Zdigits2.
  replace (e - Z.pos k + Z.pos k) with e by lia.
  rewrite Hc, Z.sub_diag. cbv [shr shr_record_of_loc shr_m].
  rewrite He. reflexivity.
Qed.

End Rounding.

(** Multiplying a value of [T] by [static_cast<T>(1.0)] returns it. *)
Lemma Fp_mul_one ty x :
  Fp.valid ty x = true -> Fp.mul ty (Fp.static_cast ty Fp.one) x = x.
Proof.
  intros Hv. destruct x as [s|s| |s m e].
  - destruct ty; reflexivity.
  - destruct ty; reflexivity.
  - destruct ty; reflexivity.
  - unfold Fp.valid, valid_binary in Hv.
    destruct ty.
    + change (Fp.static_cast Float32 Fp.one)
        with (S754_finite false 8388608 (-23)).
      unfold Fp.mul, SFmul.
      change (xorb false s) with s.
      change (8388608 * m)%positive with (Pos.iter xO m 23).
      replace (-23 + e) with (e - 23) by lia.
      now apply round_shifted.
    + unfold Fp.static_cast, Fp.one, Fp.mul, SFmul.
      change (xorb false s) with s.
      change (4503599627370496 * m)%positive with (Pos.iter xO m 52).
      replace (-52 + e) with (e - 52) by lia.
      now apply round_shifted.
Qed.

(** Multiplying a finite value by [static_cast<T>(0.0)] gives a zero. *)
Lemma Fp_mul_zero ty x :
  Fp.is_finite x = true ->
  Fp.is_zero (Fp.mul ty (Fp.static_cast ty Fp.zero) x) = true.
Proof. destruct ty, x; simpl; try discriminate; reflexivity. Qed.

(** ** Facts of the loops *)

Lemma for_range_ext {S : Type} n (f g : nat -> S -> S) s :
  (forall i acc, f i acc = g i acc) -> for_range n f s = for_range n g s.
Proof.
  intros Hfg. unfold for_range. generalize (seq 0 n) as idx. intros idx.
  revert s. induction idx as [|i idx IH]; intros s; simpl.
  - reflexivity.
  - rewrite Hfg. apply IH.
Qed.

(** A loop of indexed writes keeps the length of the buffer. *)
Lemma for_range_insert_length (f : nat -> Buffer -> spec_float) n dst :
  length (for_range n (fun i d => <[i := f i d]> d) dst) = length dst.
Proof.
  unfold for_range. generalize (seq 0 n) as idx. intros idx.
  revert dst. induction idx as [|i idx IH]; intros dst; simpl.
  - reflexivity.
  - rewrite IH. apply length_insert.
Qed.

Lemma compare_eq_from_true ty eps lhs rhs n : forall i,
  compare_eq_from ty eps lhs rhs i n = true <->
  (forall j, (i <= j < i + n)%nat -> Fp.ge (abs_diff ty lhs rhs j) eps = false).
Proof.
  induction n as [|n IH]; intros i; simpl.
  - split; [intros _ j Hj; lia | reflexivity].
  - fold (abs_diff ty lhs rhs i).
    destruct (Fp.ge (abs_diff ty lhs rhs i) eps) eqn:Hi.
    + split; [discriminate|]. intros H.
      rewrite (H i) in Hi by lia. discriminate.
    + rewrite IH. split.
      * intros H j Hj. destruct (decide (j = i)) as [->|Hne]; [exact Hi|].
        apply H. lia.
      * intros H j Hj. apply H. lia.
Qed.

(** The comparison kernel answers [true] exactly when no component pair is
    at or beyond the tolerance. *)
Lemma kernel_compare_eq_true ty n eps lhs rhs :
  kernel_compare_eq ty n eps lhs rhs = true <-> none_beyond ty eps n lhs rhs.
Proof.
  unfold kernel_compare_eq, none_beyond. rewrite compare_eq_from_true.
  split; intros H j Hj; apply H; lia.
Qed.

Lemma kernel_compare_eq_refl ty n eps x :
  Fp.lt Fp.zero eps = true -> kernel_compare_eq ty n eps x x = true.
Proof.
  intros Hpos. apply kernel_compare_eq_true. intros i _.
  now apply Fp_ge_abs_sub_diag.
Qed.

(** ** The dot product and the squared length *)

(** C6: for every Vector4 buffer [v], [kernel_length_square_vec4] returns the
    very value [kernel_dot_vec4] returns on [v] and [v]: same start value,
    same order of accumulation, for finite and non-finite components
    alike. *)
Theorem length_square_is_dot_self (ty : scalar_t) (v : Buffer) :
  kernel_length_square_vec4 ty v = kernel_dot_vec4 ty v v.
Proof.
  unfold kernel_length_square_vec4, kernel_dot_vec4.
  unfold kernel_length_square, kernel_dot.
  apply for_range_ext. intros i accum. reflexivity.
Qed.

Lemma kernel_dot_comm ty n (a b : Buffer) : kernel_dot ty n a b = kernel_dot ty n b a.
Proof.
  unfold kernel_dot. apply for_range_ext. intros i accum.
  now rewrite (Fp_mul_comm ty (a !!! i) (b !!! i)).
Qed.

(** C7: the scalar dot kernels are commutative in their two arguments: for
    every pair of buffers [dot(a, b)] and [dot(b, a)] are the same value,
    in both precisions, for four and for two components. *)
Theorem dot_commutative (ty : scalar_t) (a b : Buffer) :
  kernel_dot_vec4 ty a b = kernel_dot_vec4 ty b a
  /\ kernel_dot_vec2 ty a b = kernel_dot_vec2 ty b a.
Proof.
  split; [unfold kernel_dot_vec4 | unfold kernel_dot_vec2];
    apply kernel_dot_comm.
Qed.

(** The two results also pass the library's tolerance test against one
    another, whatever they are. *)
Lemma dot_commutative_within_tolerance ty eps (a b : Buffer) :
  Fp.lt Fp.zero eps = true ->
  Fp.ge (Fp.abs (Fp.sub ty (kernel_dot_vec4 ty a b) (kernel_dot_vec4 ty b a)))
    eps = false.
Proof.
  intros Hpos. unfold kernel_dot_vec4. rewrite (kernel_dot_comm ty _ a b).
  now apply Fp_ge_abs_sub_diag.
Qed.

(** ** Approximate equality *)

(** C2, as stated, fails: on a buffer that holds an infinity the kernel
    answers [true] for the buffer against itself, although the difference
    at index 0 is NaN and so not strictly below the tolerance. *)
Lemma compare_eq_strict_iff_counterexample :
  ~ (kernel_compare_eq_vec4 EPS_nominal Float64 inf_then_zeros inf_then_zeros
       = true
     <-> all_strictly_within Float64 (Fp.static_cast Float64 EPS_nominal) 4
           inf_then_zeros inf_then_zeros).
Proof.
  intros [Hall _]. specialize (Hall eq_refl 0%nat ltac:(lia)).
  vm_compute in Hall. discriminate Hall.
Qed.

Lemma none_beyond_nan_or_within ty eps n lhs rhs :
  Fp.is_nan eps = false ->
  none_beyond ty eps n lhs rhs <-> all_nan_or_within ty eps n lhs rhs.
Proof.
  intros Heps. unfold none_beyond, all_nan_or_within.
  split; intros H i Hi; apply (Fp_ge_false_iff _ _ Heps); now apply H.
Qed.

Lemma kernel_compare_eq_beyond ty n eps lhs rhs i :
  (i < n)%nat -> Fp.ge (abs_diff ty lhs rhs i) eps = true ->
  kernel_compare_eq ty n eps lhs rhs = false.
Proof.
  intros Hi Hge. apply not_true_is_false. intros Htrue.
  apply kernel_compare_eq_true in Htrue. rewrite (Htrue i Hi) in Hge.
  discriminate Hge.
Qed.

(** C2 (amended): against a tolerance that is a number, [compare_eq]
    answers [true] if and only if every component pair has a NaN difference
    or satisfies |lhs[i] - rhs[i]| < epsilon, componentwise; and a single
    component pair at or beyond the tolerance makes the answer [false].
    For four components with [static_cast<T>(EPS)] and for two with
    [EPS<T>]. *)
Theorem compare_eq_componentwise (EPS : spec_float)
    (EPS_T : scalar_t -> spec_float) (ty : scalar_t) (lhs rhs : Buffer) :
  Fp.is_nan (Fp.static_cast ty EPS) = false ->
  Fp.is_nan (EPS_T ty) = false ->
  (kernel_compare_eq_vec4 EPS ty lhs rhs = true
   <-> all_nan_or_within ty (Fp.static_cast ty EPS) 4 lhs rhs)
  /\ (kernel_compare_eq_vec2 EPS_T ty lhs rhs = true
      <-> all_nan_or_within ty (EPS_T ty) 2 lhs rhs)
  /\ (forall i, (i < 4)%nat ->
        Fp.ge (abs_diff ty lhs rhs i) (Fp.static_cast ty EPS) = true ->
        kernel_compare_eq_vec4 EPS ty lhs rhs = false)
  /\ (forall i, (i < 2)%nat ->
        Fp.ge (abs_diff ty lhs rhs i) (EPS_T ty) = true ->
        kernel_compare_eq_vec2 EPS_T ty lhs rhs = false).
Proof.
  intros H4 H2. unfold kernel_compare_eq_vec4, kernel_compare_eq_vec2.
  repeat split.
  - intros H. apply none_beyond_nan_or_within; [exact H4|].
    now apply kernel_compare_eq_true.
  - intros H. apply kernel_compare_eq_true.
    now apply none_beyond_nan_or_within.
  - intros H. apply none_beyond_nan_or_within; [exact H2|].
    now apply kernel_compare_eq_true.
  - intros H. apply kernel_compare_eq_true.
    now apply none_beyond_nan_or_within.
  - intros i Hi Hge. now apply (kernel_compare_eq_beyond ty _ _ lhs rhs i).
  - intros i Hi Hge. now apply (kernel_compare_eq_beyond ty _ _ lhs rhs i).
Qed.

Lemma compare_eq_componentwise_witness :
  Fp.is_nan (Fp.static_cast Float64 EPS_nominal) = false
  /\ Fp.is_nan (EPS_T_spec EPS_nominal Float64) = false
  /\ (kernel_compare_eq_vec4 EPS_nominal Float64 one_two_three_four
        inf_then_zeros = true
      <-> all_nan_or_within Float64 (Fp.static_cast Float64 EPS_nominal) 4
            one_two_three_four inf_then_zeros).
Proof.
  split; [reflexivity|]. split; [reflexivity|].
  apply (compare_eq_componentwise EPS_nominal (EPS_T_spec EPS_nominal) Float64
           one_two_three_four inf_then_zeros); reflexivity.
Defined.

(** C9: for every buffer [x], finite or not, [compare_eq(x, x)] answers
    [true], the tolerance being positive. *)
Theorem compare_eq_reflexive (EPS : spec_float) (ty : scalar_t) (x : Buffer) :
  Fp.lt Fp.zero (Fp.static_cast ty EPS) = true ->
  kernel_compare_eq_vec4 EPS ty x x = true.
Proof.
  intros Hpos. unfold kernel_compare_eq_vec4.
  now apply kernel_compare_eq_refl.
Qed.

Lemma compare_eq_reflexive_witness :
  Fp.lt Fp.zero (Fp.static_cast Float32 EPS_nominal) = true
  /\ kernel_compare_eq_vec4 EPS_nominal Float32 nan_inf_one_zero
       nan_inf_one_zero = true.
Proof.
  split; [reflexivity|].
  apply (compare_eq_reflexive EPS_nominal Float32 nan_inf_one_zero).
  reflexivity.
Defined.

(** ** Normalisation *)

(** C4: normalising the all-zero Vector4, whatever the signs of its zeros,
    raises nothing and does not hand the buffer back untouched: every
    component of the result is NaN, the quotient of a zero by the zero
    length.  For every input the kernel returns a buffer of the length it
    was given; it has no other way out. *)
Theorem normalize_zero_vector (ty : scalar_t) (s0 s1 s2 s3 : bool) :
  kernel_normalize_in_place_vec4 ty
    [S754_zero s0; S754_zero s1; S754_zero s2; S754_zero s3]
  = [S754_nan; S754_nan; S754_nan; S754_nan]
  /\ Forall (fun c => Fp.is_finite c = false)
       (kernel_normalize_in_place_vec4 ty
          [S754_zero s0; S754_zero s1; S754_zero s2; S754_zero s3])
  /\ kernel_normalize_in_place_vec4 ty
       [S754_zero s0; S754_zero s1; S754_zero s2; S754_zero s3]
     <> [S754_zero s0; S754_zero s1; S754_zero s2; S754_zero s3]
  /\ (forall v : Buffer,
        length (kernel_normalize_in_place_vec4 ty v) = length v).
Proof.
  assert (Hnan : kernel_normalize_in_place_vec4 ty
            [S754_zero s0; S754_zero s1; S754_zero s2; S754_zero s3]
          = [S754_nan; S754_nan; S754_nan; S754_nan]).
  { destruct ty, s0, s1, s2, s3; reflexivity. }
  rewrite Hnan. split; [reflexivity|]. split; [|split].
  - repeat constructor.
  - discriminate.
  - intros v. unfold kernel_normalize_in_place_vec4, kernel_normalize_in_place.
    apply (for_range_insert_length
             (fun i d => Fp.div ty (d !!! i)
                           (Fp.sqrt ty (kernel_length_square ty VECTOR_SIZE_4 v)))).
Qed.

(** ** The operator layer *)

(** C5: under every build configuration [operator==] is the scalar kernel
    [kernel_compare_eq_mat4] on the two element buffers and [operator!=] its
    negation; which SIMD backend is enabled makes no difference. *)
Theorem equality_uses_scalar_kernel (impl : mat4_backends)
    (cfg : build_config) (ty : scalar_t) (lhs rhs : Matrix4) :
  operator_eq impl cfg ty lhs rhs
  = kernel_compare_eq_mat4 (scalar_only impl) ty (elements lhs) (elements rhs)
  /\ operator_neq impl cfg ty lhs rhs
     = negb (kernel_compare_eq_mat4 (scalar_only impl) ty (elements lhs)
               (elements rhs))
  /\ (forall cfg' : build_config,
        operator_eq impl cfg' ty lhs rhs = operator_eq impl cfg ty lhs rhs
        /\ operator_neq impl cfg' ty lhs rhs = operator_neq impl cfg ty lhs rhs).
Proof.
  unfold operator_eq, operator_neq. repeat split.
Qed.

(** C10: for every matrix and every [double] scalar, [s * M] and [M * s]
    are the same matrix in every build configuration: both hand the same
    narrowed scalar and the same buffer to the same scale kernel. *)
Theorem scalar_product_sides_agree (impl : mat4_backends)
    (cfg : build_config) (ty : scalar_t) (s : spec_float) (M : Matrix4) :
  operator_mul_scalar_mat impl cfg ty s M
  = operator_mul_mat_scalar impl cfg ty M s.
Proof.
  unfold operator_mul_scalar_mat, operator_mul_mat_scalar, select.
  destruct (LOCOMATH_AVX_ENABLED cfg), (LOCOMATH_SSE_ENABLED cfg);
    reflexivity.
Qed.

(** ** Scaling *)

(** A loop of writes [dst[i] = f i] over a buffer of the loop's length
    leaves exactly the values written. *)
Lemma write_loop_from (f : nat -> spec_float) m : forall k (pre suf : Buffer),
  length pre = k -> length suf = m ->
  fold_left (fun d i => <[i := f i]> d) (seq k m) (pre ++ suf)
  = pre ++ map f (seq k m).
Proof.
  induction m as [|m IH]; intros k pre suf Hpre Hsuf; simpl.
  - destruct suf; [reflexivity | discriminate].
  - destruct suf as [|x suf]; [discriminate|].
    rewrite insert_app_r_alt by lia.
    replace (k - length pre)%nat with 0%nat by lia. simpl.
    rewrite (cons_middle (f k) pre suf), (cons_middle (f k) pre (map f _)).
    rewrite !app_assoc.
    apply IH; [rewrite length_app; simpl; lia | simpl in Hsuf; lia].
Qed.

Lemma for_range_insert_map (f : nat -> spec_float) n (dst : Buffer) :
  length dst = n ->
  for_range n (fun i d => <[i := f i]> d) dst = map f (seq 0 n).
Proof.
  intros Hlen. unfold for_range.
  apply (write_loop_from f n 0%nat [] dst); [reflexivity | exact Hlen].
Qed.

Lemma map_lookup_seq (g : spec_float -> spec_float) (a : Buffer) :
  map (fun i => g (a !!! i)) (seq 0 (length a)) = map g a.
Proof.
  induction a as [|x a IH]; simpl; [reflexivity|].
  f_equal. rewrite <- seq_shift, map_map. exact IH.
Qed.

Lemma kernel_scale_map ty n (dst : Buffer) s (a : Buffer) :
  length dst = n -> length a = n ->
  kernel_scale ty n dst s a = map (Fp.mul ty s) a.
Proof.
  intros Hd Ha. unfold kernel_scale.
  rewrite (for_range_insert_map (fun i => Fp.mul ty s (a !!! i)) n dst Hd).
  rewrite <- Ha. apply map_lookup_seq.
Qed.

Lemma map_mul_one ty (a : Buffer) :
  Forall (fun c => Fp.valid ty c = true) a ->
  map (Fp.mul ty (Fp.static_cast ty Fp.one)) a = a.
Proof.
  induction 1 as [|x a Hx _ IH]; simpl; [reflexivity|].
  now rewrite Fp_mul_one, IH.
Qed.

Lemma map_mul_zero ty (a : Buffer) :
  Forall (fun c => Fp.is_finite c = true) a ->
  Forall (fun c => Fp.is_zero c = true)
    (map (Fp.mul ty (Fp.static_cast ty Fp.zero)) a).
Proof.
  induction 1 as [|x a Hx _ IH]; simpl; constructor; [|exact IH].
  now apply Fp_mul_zero.
Qed.

Lemma compare_eq_zeros ty n eps (z : Buffer) :
  Fp.lt Fp.zero eps = true ->
  Forall (fun c => Fp.is_zero c = true) z ->
  length z = n ->
  kernel_compare_eq ty n eps z (replicate n Fp.zero) = true.
Proof.
  intros Hpos Hz Hlen. apply kernel_compare_eq_true. intros i Hi.
  unfold abs_diff. rewrite lookup_total_replicate_2 by exact Hi.
  assert (Hzi : Fp.is_zero (z !!! i) = true).
  { apply (Forall_lookup_total_1 (fun c => Fp.is_zero c = true) z i Hz). lia. }
  destruct (z !!! i) as [s| | |]; try discriminate Hzi.
  destruct s; now apply Fp_ge_zero_pos.
Qed.

(** Both identities for the loop over [n] components. *)
Lemma kernel_scale_identities ty n eps (dst a : Buffer) :
  length dst = n -> length a = n -> finite_values ty a ->
  Fp.lt Fp.zero eps = true ->
  length (kernel_scale ty n dst (Fp.static_cast ty Fp.zero) a) = n
  /\ Forall (fun c => Fp.is_zero c = true)
       (kernel_scale ty n dst (Fp.static_cast ty Fp.zero) a)
  /\ kernel_compare_eq ty n eps
       (kernel_scale ty n dst (Fp.static_cast ty Fp.zero) a)
       (replicate n Fp.zero) = true
  /\ kernel_scale ty n dst (Fp.static_cast ty Fp.one) a = a
  /\ kernel_compare_eq ty n eps
       (kernel_scale ty n dst (Fp.static_cast ty Fp.one) a) a = true.
Proof.
  intros Hd Ha Hfin Hpos.
  assert (Hf : Forall (fun c => Fp.is_finite c = true) a).
  { eapply Forall_impl; [exact Hfin|]. now intros c [H _]. }
  assert (Hv : Forall (fun c => Fp.valid ty c = true) a).
  { eapply Forall_impl; [exact Hfin|]. now intros c [_ H]. }
  rewrite !(kernel_scale_map ty n dst _ a Hd Ha), (map_mul_one ty a Hv).
  pose proof (map_mul_zero ty a Hf) as Hz.
  assert (Hl : length (map (Fp.mul ty (Fp.static_cast ty Fp.zero)) a) = n).
  { now rewrite length_map. }
  split; [exact Hl|]. split; [exact Hz|]. split; [|split].
  - now apply compare_eq_zeros.
  - reflexivity.
  - now apply kernel_compare_eq_refl.
Qed.

(** C8: for every vector [a] whose components are finite values of [T],
    [scale(0, a)] is the all-zero vector: each component is a zero and the
    result compares equal to the zero vector within the tolerance; and
    [scale(1, a)] is [a], component for component, hence equal to [a]
    within the tolerance.  For four components ([dst], [a]) and for two
    ([dst2], [a2]), the tolerance being positive. *)
Theorem scale_identities (EPS : spec_float) (EPS_T : scalar_t -> spec_float)
    (ty : scalar_t) (dst a dst2 a2 : Buffer) :
  length dst = 4%nat -> length a = 4%nat -> finite_values ty a ->
  length dst2 = 2%nat -> length a2 = 2%nat -> finite_values ty a2 ->
  Fp.lt Fp.zero (Fp.static_cast ty EPS) = true ->
  Fp.lt Fp.zero (EPS_T ty) = true ->
  (length (kernel_scale_vec4 ty dst (Fp.static_cast ty Fp.zero) a) = 4%nat
   /\ Forall (fun c => Fp.is_zero c = true)
        (kernel_scale_vec4 ty dst (Fp.static_cast ty Fp.zero) a)
   /\ kernel_compare_eq_vec4 EPS ty
        (kernel_scale_vec4 ty dst (Fp.static_cast ty Fp.zero) a)
        (replicate 4 Fp.zero) = true
   /\ kernel_scale_vec4 ty dst (Fp.static_cast ty Fp.one) a = a
   /\ kernel_compare_eq_vec4 EPS ty
        (kernel_scale_vec4 ty dst (Fp.static_cast ty Fp.one) a) a = true)
  /\ (length (kernel_scale_vec2 ty dst2 (Fp.static_cast ty Fp.zero) a2) = 2%nat
      /\ Forall (fun c => Fp.is_zero c = true)
           (kernel_scale_vec2 ty dst2 (Fp.static_cast ty Fp.zero) a2)
      /\ kernel_compare_eq_vec2 EPS_T ty
           (kernel_scale_vec2 ty dst2 (Fp.static_cast ty Fp.zero) a2)
           (replicate 2 Fp.zero) = true
      /\ kernel_scale_vec2 ty dst2 (Fp.static_cast ty Fp.one) a2 = a2
      /\ kernel_compare_eq_vec2 EPS_T ty
           (kernel_scale_vec2 ty dst2 (Fp.static_cast ty Fp.one) a2) a2 = true).
Proof.
  intros Hd Ha Hfin Hd2 Ha2 Hfin2 Hpos Hpos2. split.
  - exact (kernel_scale_identities ty 4 _ dst a Hd Ha Hfin Hpos).
  - exact (kernel_scale_identities ty 2 _ dst2 a2 Hd2 Ha2 Hfin2 Hpos2).
Qed.

Lemma scale_identities_witness :
  length (replicate 4 Fp.zero : Buffer) = 4%nat
  /\ length one_two_three_four = 4%nat
  /\ finite_values Float64 one_two_three_four
  /\ length (replicate 2 Fp.zero : Buffer) = 2%nat
  /\ length one_two = 2%nat
  /\ finite_values Float64 one_two
  /\ Fp.lt Fp.zero (Fp.static_cast Float64 EPS_nominal) = true
  /\ Fp.lt Fp.zero (EPS_T_spec EPS_nominal Float64) = true
  /\ kernel_scale_vec4 Float64 (replicate 4 Fp.zero)
       (Fp.static_cast Float64 Fp.one) one_two_three_four
     = one_two_three_four
  /\ kernel_scale_vec2 Float64 (replicate 2 Fp.zero)
       (Fp.static_cast Float64 Fp.one) one_two
     = one_two.
Proof.
  assert (H4 : finite_values Float64 one_two_three_four)
    by (repeat constructor).
  assert (H2 : finite_values Float64 one_two) by (repeat constructor).
  repeat (split; [first [reflexivity | assumption]|]).
  destruct (scale_identities EPS_nominal (EPS_T_spec EPS_nominal) Float64
              (replicate 4 Fp.zero) one_two_three_four
              (replicate 2 Fp.zero) one_two
              eq_refl eq_refl H4 eq_refl eq_refl H2 eq_refl eq_refl)
    as [(_ & _ & _ & Hone4 & _) (_ & _ & _ & Hone2 & _)].
  split; assumption.
Defined.

(** ** Stream extraction *)

Section StreamFacts.

Variable parse_token : scalar_t -> string -> option spec_float.
Variable ty : scalar_t.

(** Once the stream has failed, or when one of the next [n] tokens is
    missing or is no number, the chain of extractions ends failed. *)
Lemma read_loop_failed n : forall k s mat,
  failbit s = true \/ parse_tokens parse_token ty n (tokens s) = None ->
  failbit
    (fst (fold_left (fun acc k => read_body parse_token ty k acc) (seq k n)
            (s, mat)))
  = true.
Proof.
  induction n as [|n IH]; intros k s mat H; cbn [seq fold_left].
  - destruct H as [H|H]; [exact H | discriminate H].
  - unfold read_body at 2, extract.
    destruct (failbit s) eqn:Hf.
    + apply IH. left. exact Hf.
    + destruct H as [H|H]; [discriminate H|]. simpl in H.
      destruct (tokens s) as [|t rest]; [apply IH; left; reflexivity|].
      destruct (parse_token ty t) as [v|]; [|apply IH; left; reflexivity].
      apply IH. right. simpl.
      destruct (parse_tokens parse_token ty n rest);
        [discriminate H|reflexivity].
Qed.

(** On a good stream whose next [n] tokens are numbers, the chain stores
    their values in slots [k], [k+1], ... and leaves the stream good. *)
Lemma read_loop_parsed n : forall k s (pre suf : Buffer) vs,
  failbit s = false ->
  parse_tokens parse_token ty n (tokens s) = Some vs ->
  length pre = k -> length suf = n ->
  fold_left (fun acc k => read_body parse_token ty k acc) (seq k n)
    (s, pre ++ suf)
  = ({| tokens := drop n (tokens s); failbit := false |}, pre ++ vs).
Proof.
  induction n as [|n IH]; intros k s pre suf vs Hf Hp Hpre Hsuf;
    cbn [seq fold_left].
  - simpl in Hp. injection Hp as <-. destruct suf; [|discriminate].
    destruct s as [toks fb]. simpl in *. subst fb. now rewrite drop_0.
  - simpl in Hp. unfold read_body at 2, extract. rewrite Hf.
    destruct (tokens s) as [|t rest]; [discriminate Hp|].
    destruct (parse_token ty t) as [v|]; [|discriminate Hp].
    destruct (parse_tokens parse_token ty n rest) as [vs'|] eqn:Hrest;
      [|discriminate Hp].
    injection Hp as <-.
    destruct suf as [|x suf]; [discriminate|].
    rewrite insert_app_r_alt by lia.
    replace (k - length pre)%nat with 0%nat by lia. simpl.
    rewrite (cons_middle v pre suf), (cons_middle v pre vs'), !app_assoc.
    rewrite (IH (S k) {| tokens := rest; failbit := false |}
               (pre ++ [v]) suf vs');
      [reflexivity | reflexivity | exact Hrest
      | rewrite length_app; simpl; lia | simpl in Hsuf; lia].
Qed.

Lemma parse_tokens_lookup n : forall toks vs,
  parse_tokens parse_token ty n toks = Some vs ->
  forall k, (k < n)%nat ->
    exists t, toks !! k = Some t /\ parse_token ty t = Some (vs !!! k).
Proof.
  induction n as [|n IH]; intros toks vs Hp; simpl in Hp.
  - intros k Hk; lia.
  - destruct toks as [|t rest]; [discriminate Hp|].
    destruct (parse_token ty t) as [v|] eqn:Ht; [|discriminate Hp].
    destruct (parse_tokens parse_token ty n rest) as [vs'|] eqn:Hrest;
      [|discriminate Hp].
    injection Hp as <-. intros [|k] Hlt.
    + exists t. split; [reflexivity | exact Ht].
    + destruct (IH rest vs' Hrest k ltac:(lia)) as [t' [H1 H2]].
      exists t'. split; assumption.
Qed.

(** After the sixteen assignments, element (k/4, k%4) holds [mat[k]]. *)
Lemma rshift_writes (dst : Matrix4) (mat : Buffer) :
  length (elements dst) = 16%nat ->
  forall k, (k < 16)%nat ->
    mat_get
      (fold_left (fun dst '(row, col, k) => mat_set dst row col (mat !!! k))
         rshift_assignments dst)
      (k / 4) (k mod 4)
    = mat !!! k.
Proof.
  intros Hlen. destruct dst as [els]. simpl in Hlen.
  do 16 (destruct els as [|? els]; [discriminate Hlen|]).
  destruct els; [|discriminate Hlen].
  intros k Hk.
  do 16 (destruct k as [|k]; [reflexivity|]). lia.
Qed.

Lemma operator_rshift_failed indeterminate s dst :
  parse_sixteen parse_token ty s = None ->
  failbit (fst (operator_rshift parse_token ty indeterminate s dst)) = true
  /\ snd (operator_rshift parse_token ty indeterminate s dst) = dst.
Proof.
  intros Hnone. unfold operator_rshift, extract_all, for_range.
  pose proof (read_loop_failed BUFFER_SIZE 0%nat s
                (map indeterminate (seq 0 BUFFER_SIZE))) as Hfail.
  destruct (fold_left _ _ _) as [s' mat'].
  cbn [fst] in Hfail.
  assert (Hs' : failbit s' = true).
  { apply Hfail. unfold parse_sixteen in Hnone.
    destruct (failbit s); [left; reflexivity | right; exact Hnone]. }
  rewrite Hs'. cbn [negb fst snd]. split; [exact Hs' | reflexivity].
Qed.

Lemma operator_rshift_parsed indeterminate s dst vs :
  length (elements dst) = 16%nat ->
  parse_sixteen parse_token ty s = Some vs ->
  failbit (fst (operator_rshift parse_token ty indeterminate s dst)) = false
  /\ forall k, (k < 16)%nat ->
       mat_get (snd (operator_rshift parse_token ty indeterminate s dst))
         (k / 4) (k mod 4) = vs !!! k.
Proof.
  intros Hlen Hsome. unfold parse_sixteen in Hsome.
  destruct (failbit s) eqn:Hf; [discriminate Hsome|].
  unfold operator_rshift, extract_all, for_range.
  pose proof (read_loop_parsed BUFFER_SIZE 0%nat s []
                (map indeterminate (seq 0 BUFFER_SIZE)) vs Hf Hsome
                eq_refl eq_refl) as Hread.
  change ([] ++ ?l) with l in Hread. rewrite Hread.
  cbn [failbit negb fst snd]. split; [reflexivity|].
  now apply rshift_writes.
Qed.

End StreamFacts.

(** C1: for every destination matrix and every input stream, if the stream
    does not offer sixteen tokens that all parse, [operator>>] ends with the
    stream failed and the destination exactly as it was; if it does, the
    stream stays good and token [k] is stored at row [k/4], column [k%4]. *)
Theorem rshift_fail_soft
    (parse_token : scalar_t -> string -> option spec_float) (ty : scalar_t)
    (indeterminate : nat -> spec_float) (s : istream) (dst : Matrix4) :
  length (elements dst) = 16%nat ->
  (parse_sixteen parse_token ty s = None ->
     failbit (fst (operator_rshift parse_token ty indeterminate s dst)) = true
     /\ snd (operator_rshift parse_token ty indeterminate s dst) = dst)
  /\ (forall vs, parse_sixteen parse_token ty s = Some vs ->
        failbit (fst (operator_rshift parse_token ty indeterminate s dst))
        = false
        /\ forall k, (k < 16)%nat ->
             exists t, tokens s !! k = Some t
               /\ parse_token ty t
                  = Some (mat_get
                            (snd (operator_rshift parse_token ty
                                    indeterminate s dst))
                            (k / 4) (k mod 4))).
Proof.
  intros Hlen. split.
  - apply operator_rshift_failed.
  - intros vs Hsome.
    destruct (operator_rshift_parsed parse_token ty indeterminate s dst vs
                Hlen Hsome) as [Hgood Hat].
    split; [exact Hgood|]. intros k Hk. rewrite (Hat k Hk).
    unfold parse_sixteen in Hsome.
    destruct (failbit s); [discriminate Hsome|].
    exact (parse_tokens_lookup parse_token ty BUFFER_SIZE (tokens s) vs
             Hsome k Hk).
Qed.

Lemma rshift_fail_soft_witness :
  length (elements Matrix4_default) = 16%nat
  /\ failbit
       (fst (operator_rshift parse_decimal_token Float32
               (fun _ => S754_nan) sixteen_tokens Matrix4_default)) = false
  /\ mat_get
       (snd (operator_rshift parse_decimal_token Float32
               (fun _ => S754_nan) sixteen_tokens Matrix4_default)) 1 2
     = S754_finite false 14680064 (-21).
Proof.
  split; [reflexivity|].
  destruct (rshift_fail_soft parse_decimal_token Float32 (fun _ => S754_nan)
              sixteen_tokens Matrix4_default eq_refl) as [_ Hparsed].
  destruct (Hparsed
              (snd (extract_all parse_decimal_token Float32 sixteen_tokens
                      (replicate 16 S754_nan)))
              eq_refl) as [Hgood _].
  split; [exact Hgood | reflexivity].
Defined.


(** * Further properties of the kernels and of the stream operator *)

(** ** More facts of the arithmetic *)

Lemma Fp_add_comm ty x y : Fp.add ty x y = Fp.add ty y x.
Proof.
  unfold Fp.add.
  destruct x as [sx|sx| |sx mx ex], y as [sy|sy| |sy my ey]; simpl;
    try reflexivity; try (destruct sx, sy; reflexivity).
  rewrite (Z.min_comm ey ex), Z.add_comm. reflexivity.
Qed.

Lemma SFabs_binary_round_aux prec emax s s' m e l :
  SFabs (binary_round_aux prec emax s m e l)
  = SFabs (binary_round_aux prec emax s' m e l).
Proof.
  unfold binary_round_aux.
  destruct (shr_fexp prec emax m e l) as [mrs' e'].
  destruct (shr_fexp prec emax _ e' loc_Exact) as [mrs'' e''].
  destruct (shr_m mrs'') as [|p|p]; [reflexivity| |reflexivity].
  destruct (e'' <=? emax - prec); reflexivity.
Qed.

Lemma SFabs_binary_round prec emax s s' m e :
  SFabs (binary_round prec emax s m e) = SFabs (binary_round prec emax s' m e).
Proof.
  unfold binary_round.
  destruct (shl_align m e _) as [mz ez]. apply SFabs_binary_round_aux.
Qed.

Lemma Fp_abs_sub_swap ty x y :
  Fp.abs (Fp.sub ty x y) = Fp.abs (Fp.sub ty y x).
Proof.
  unfold Fp.abs, Fp.sub.
  destruct x as [sx|sx| |sx mx ex], y as [sy|sy| |sy my ey]; simpl;
    try reflexivity; try (destruct sx, sy; reflexivity).
  rewrite (Z.min_comm ey ex).
  set (A := cond_Zopp sx _). set (B := cond_Zopp sy _).
  replace (B - A) with (- (A - B)) by lia.
  destruct (A - B) as [|p|p]; simpl; [reflexivity| |];
    apply SFabs_binary_round.
Qed.

Lemma not_negative_round_aux prec emax m e l :
  not_negative (binary_round_aux prec emax false m e l) = true.
Proof.
  unfold binary_round_aux.
  destruct (shr_fexp prec emax m e l) as [mrs' e'].
  destruct (shr_fexp prec emax _ e' loc_Exact) as [mrs'' e''].
  destruct (shr_m mrs'') as [|p|p]; [reflexivity| |reflexivity].
  destruct (e'' <=? emax - prec); reflexivity.
Qed.

Lemma not_negative_square ty x : not_negative (Fp.mul ty x x) = true.
Proof.
  unfold Fp.mul. destruct x as [s|s| |s m e]; simpl;
    try reflexivity; try (destruct s; reflexivity).
  destruct s; apply not_negative_round_aux.
Qed.

Lemma not_negative_add ty x y :
  not_negative x = true -> not_negative y = true ->
  not_negative (Fp.add ty x y) = true.
Proof.
  unfold Fp.add.
  destruct x as [sx|sx| |sx mx ex], y as [sy|sy| |sy my ey]; simpl;
    intros Hx Hy; try reflexivity; try assumption;
    try (destruct sx, sy; simpl in *; congruence).
  destruct sx, sy; try discriminate. simpl.
  unfold binary_round. destruct (shl_align _ _ _) as [mz ez].
  apply not_negative_round_aux.
Qed.

Lemma Fp_add_nan_l ty x : Fp.add ty S754_nan x = S754_nan.
Proof. reflexivity. Qed.
Lemma Fp_add_nan_r ty x : Fp.add ty x S754_nan = S754_nan.
Proof. destruct x; reflexivity. Qed.
Lemma Fp_mul_nan_l ty x : Fp.mul ty S754_nan x = S754_nan.
Proof. reflexivity. Qed.
Lemma Fp_mul_nan_r ty x : Fp.mul ty x S754_nan = S754_nan.
Proof. destruct x; reflexivity. Qed.
Lemma Fp_div_nan_r ty x : Fp.div ty x S754_nan = S754_nan.
Proof. destruct x; reflexivity. Qed.

Lemma Fp_mul_opp_opp ty x : Fp.mul ty (SFopp x) (SFopp x) = Fp.mul ty x x.
Proof.
  unfold Fp.mul. destruct x as [s|s| |s m e]; simpl;
    try reflexivity; destruct s; reflexivity.
Qed.

Lemma Fp_mul_minus_one ty x :
  Fp.valid ty x = true -> Fp.mul ty (Fp.static_cast ty minus_one) x = SFopp x.
Proof.
  intros Hv. destruct x as [s|s| |s m e].
  - destruct ty; reflexivity.
  - destruct ty; reflexivity.
  - destruct ty; reflexivity.
  - unfold Fp.valid, valid_binary in Hv.
    destruct ty.
    + change (Fp.static_cast Float32 minus_one)
        with (S754_finite true 8388608 (-23)).
      unfold Fp.mul, SFmul, SFopp.
      change (xorb true s) with (negb s).
      change (8388608 * m)%positive with (Pos.iter xO m 23).
      replace (-23 + e) with (e - 23) by lia.
      now apply round_shifted.
    + unfold Fp.static_cast, minus_one, Fp.mul, SFmul, SFopp.
      change (xorb true s) with (negb s).
      change (4503599627370496 * m)%positive with (Pos.iter xO m 52).
      replace (-52 + e) with (e - 52) by lia.
      now apply round_shifted.
Qed.

(** ** More facts of the loops *)

Lemma fold_index_ext {S : Type} (f g : nat -> S -> S) idx s :
  (forall i, In i idx -> forall acc, f i acc = g i acc) ->
  fold_left (fun acc i => f i acc) idx s = fold_left (fun acc i => g i acc) idx s.
Proof.
  revert s. induction idx as [|i idx IH]; intros s H; simpl; [reflexivity|].
  rewrite (H i (or_introl eq_refl)). apply IH.
  intros j Hj. apply H. now right.
Qed.

Lemma for_range_ext_lt {S : Type} n (f g : nat -> S -> S) s :
  (forall i, (i < n)%nat -> forall acc, f i acc = g i acc) ->
  for_range n f s = for_range n g s.
Proof.
  intros H. unfold for_range. apply fold_index_ext.
  intros i Hi. apply H. apply in_seq in Hi. lia.
Qed.

Lemma fold_index_invariant {S : Type} (P : S -> Prop) (body : nat -> S -> S) idx s :
  P s -> (forall i acc, In i idx -> P acc -> P (body i acc)) ->
  P (fold_left (fun acc i => body i acc) idx s).
Proof.
  revert s. induction idx as [|i idx IH]; intros s Hs H; simpl; [exact Hs|].
  apply IH.
  - apply H; [now left | exact Hs].
  - intros j acc Hj. apply H. now right.
Qed.

Lemma for_range_invariant {S : Type} (P : S -> Prop) n (body : nat -> S -> S) s :
  P s -> (forall i acc, (i < n)%nat -> P acc -> P (body i acc)) ->
  P (for_range n body s).
Proof.
  intros Hs H. unfold for_range. apply fold_index_invariant; [exact Hs|].
  intros i acc Hi. apply H. apply in_seq in Hi. lia.
Qed.

Lemma inplace_loop_from (g : spec_float -> spec_float) m :
  forall k (pre suf : Buffer),
  length pre = k -> length suf = m ->
  fold_left (fun d i => <[i := g (d !!! i)]> d) (seq k m) (pre ++ suf)
  = pre ++ map g suf.
Proof.
  induction m as [|m IH]; intros k pre suf Hpre Hsuf; simpl.
  - destruct suf; [reflexivity | discriminate].
  - destruct suf as [|x suf]; [discriminate|].
    rewrite (list_lookup_total_middle pre suf x k) by now symmetry.
    rewrite insert_app_r_alt by lia.
    replace (k - length pre)%nat with 0%nat by lia. simpl.
    rewrite (cons_middle (g x) pre suf), (cons_middle (g x) pre (map g suf)).
    rewrite !app_assoc.
    apply IH; [rewrite length_app; simpl; lia | simpl in Hsuf; lia].
Qed.

Lemma for_range_inplace_map (g : spec_float -> spec_float) n (v : Buffer) :
  length v = n ->
  for_range n (fun i d => <[i := g (d !!! i)]> d) v = map g v.
Proof.
  intros Hlen. unfold for_range.
  apply (inplace_loop_from g n 0%nat [] v); [reflexivity | exact Hlen].
Qed.

Lemma map_lookup_seq2 (g : spec_float -> spec_float -> spec_float) :
  forall (a b : Buffer), length a = length b ->
  map (fun i => g (a !!! i) (b !!! i)) (seq 0 (length a)) = zip_with g a b.
Proof.
  induction a as [|x a IH]; intros [|y b] Hlen; simpl; try discriminate;
    [reflexivity|].
  f_equal. rewrite <- seq_shift, map_map. apply IH. simpl in Hlen. lia.
Qed.

Lemma kernel_add_zip ty n (dst lhs rhs : Buffer) :
  length dst = n -> length lhs = n -> length rhs = n ->
  kernel_add ty n dst lhs rhs = zip_with (Fp.add ty) lhs rhs.
Proof.
  intros Hd Hl Hr. unfold kernel_add.
  rewrite (for_range_insert_map
             (fun i => Fp.add ty (lhs !!! i) (rhs !!! i)) n dst Hd).
  rewrite <- Hl. apply map_lookup_seq2. lia.
Qed.

Lemma kernel_sub_zip ty n (dst lhs rhs : Buffer) :
  length dst = n -> length lhs = n -> length rhs = n ->
  kernel_sub ty n dst lhs rhs = zip_with (Fp.sub ty) lhs rhs.
Proof.
  intros Hd Hl Hr. unfold kernel_sub.
  rewrite (for_range_insert_map
             (fun i => Fp.sub ty (lhs !!! i) (rhs !!! i)) n dst Hd).
  rewrite <- Hl. apply map_lookup_seq2. lia.
Qed.

Lemma kernel_hadamard_zip ty n (dst lhs rhs : Buffer) :
  length dst = n -> length lhs = n -> length rhs = n ->
  kernel_hadamard ty n dst lhs rhs = zip_with (Fp.mul ty) lhs rhs.
Proof.
  intros Hd Hl Hr. unfold kernel_hadamard.
  rewrite (for_range_insert_map
             (fun i => Fp.mul ty (lhs !!! i) (rhs !!! i)) n dst Hd).
  rewrite <- Hl. apply map_lookup_seq2. lia.
Qed.

Lemma kernel_normalize_map ty n (v : Buffer) :
  length v = n ->
  kernel_normalize_in_place ty n v
  = map (fun c => Fp.div ty c (Fp.sqrt ty (kernel_length_square ty n v))) v.
Proof.
  intros Hlen. unfold kernel_normalize_in_place.
  apply (for_range_inplace_map
           (fun c => Fp.div ty c (Fp.sqrt ty (kernel_length_square ty n v)))
           n v Hlen).
Qed.

Lemma kernel_add_comm ty n (dst a b : Buffer) :
  kernel_add ty n dst a b = kernel_add ty n dst b a.
Proof.
  unfold kernel_add. apply for_range_ext. intros i d.
  now rewrite (Fp_add_comm ty (a !!! i) (b !!! i)).
Qed.

Lemma kernel_hadamard_comm ty n (dst a b : Buffer) :
  kernel_hadamard ty n dst a b = kernel_hadamard ty n dst b a.
Proof.
  unfold kernel_hadamard. apply for_range_ext. intros i d.
  now rewrite (Fp_mul_comm ty (a !!! i) (b !!! i)).
Qed.

Lemma kernel_compare_eq_sym ty n eps (a b : Buffer) :
  kernel_compare_eq ty n eps a b = kernel_compare_eq ty n eps b a.
Proof.
  unfold kernel_compare_eq. generalize 0%nat as i.
  induction n as [|n IH]; intros i; simpl; [reflexivity|].
  rewrite (Fp_abs_sub_swap ty (a !!! i) (b !!! i)), IH. reflexivity.
Qed.

Lemma kernel_scale_as_hadamard ty n (dst : Buffer) s (a : Buffer) :
  kernel_scale ty n dst s a = kernel_hadamard ty n dst (replicate n s) a.
Proof.
  unfold kernel_scale, kernel_hadamard. apply for_range_ext_lt.
  intros i Hi d. now rewrite lookup_total_replicate_2.
Qed.

Lemma kernel_length_square_not_negative ty n (v : Buffer) :
  not_negative (kernel_length_square ty n v) = true.
Proof.
  unfold kernel_length_square.
  apply (for_range_invariant (fun acc => not_negative acc = true)).
  - destruct ty; reflexivity.
  - intros i acc _ Hacc. apply not_negative_add; [exact Hacc|].
    apply not_negative_square.
Qed.

Lemma fold_accumulate_nan ty (t : nat -> spec_float) idx :
  fold_left (fun acc i => Fp.add ty acc (t i)) idx S754_nan = S754_nan.
Proof. induction idx as [|i idx IH]; simpl; [reflexivity | exact IH]. Qed.

Lemma accumulate_nan ty n (t : nat -> spec_float) init j :
  (j < n)%nat -> t j = S754_nan ->
  for_range n (fun i acc => Fp.add ty acc (t i)) init = S754_nan.
Proof.
  intros Hj Ht. unfold for_range.
  replace n with (j + S (n - S j))%nat by lia.
  rewrite seq_app, fold_left_app. cbn [seq fold_left Nat.add].
  rewrite Ht, Fp_add_nan_r. apply fold_accumulate_nan.
Qed.

Lemma kernel_dot_nan_l ty n (a b : Buffer) j :
  (j < n)%nat -> a !!! j = S754_nan -> kernel_dot ty n a b = S754_nan.
Proof.
  intros Hj Ha. unfold kernel_dot.
  apply (accumulate_nan ty n (fun i => Fp.mul ty (a !!! i) (b !!! i)) _ j Hj).
  now rewrite Ha.
Qed.

Lemma kernel_length_square_nan ty n (v : Buffer) j :
  (j < n)%nat -> v !!! j = S754_nan -> kernel_length_square ty n v = S754_nan.
Proof.
  intros Hj Hv. unfold kernel_length_square.
  apply (accumulate_nan ty n (fun i => Fp.mul ty (v !!! i) (v !!! i)) _ j Hj).
  now rewrite Hv.
Qed.

Lemma kernel_normalize_nan ty n (v : Buffer) j :
  length v = n -> (j < n)%nat -> v !!! j = S754_nan ->
  kernel_normalize_in_place ty n v = replicate n S754_nan.
Proof.
  intros Hlen Hj Hv. rewrite (kernel_normalize_map ty n v Hlen).
  rewrite (kernel_length_square_nan ty n v j Hj Hv).
  change (Fp.sqrt ty S754_nan) with S754_nan. subst n. clear.
  induction v as [|x v IH]; simpl; [reflexivity|].
  now rewrite Fp_div_nan_r, IH.
Qed.

Lemma zip_sub_self ty (a : Buffer) :
  Forall (fun c => Fp.is_finite c = true) a ->
  zip_with (Fp.sub ty) a a = replicate (length a) Fp.zero.
Proof.
  induction 1 as [|x a Hx _ IH]; simpl; [reflexivity|].
  rewrite IH. f_equal. unfold Fp.sub.
  destruct x as [s|s| |s m e]; try discriminate Hx; simpl.
  - destruct s; reflexivity.
  - rewrite Z.sub_diag. reflexivity.
Qed.

Lemma kernel_dot_zero_r ty n (a : Buffer) :
  length a = n -> Forall (fun c => Fp.is_finite c = true) a ->
  kernel_dot ty n a (replicate n Fp.zero) = S754_zero false.
Proof.
  intros Hlen Hfin. unfold kernel_dot.
  apply (for_range_invariant (fun acc => acc = S754_zero false)).
  - destruct ty; reflexivity.
  - intros i acc Hi ->. rewrite lookup_total_replicate_2 by exact Hi.
    assert (Hai : Fp.is_finite (a !!! i) = true).
    { apply (Forall_lookup_total_1 (fun c => Fp.is_finite c = true) a i Hfin).
      lia. }
    destruct (a !!! i) as [s|s| |s m e]; try discriminate Hai;
      destruct s; reflexivity.
Qed.

Lemma kernel_length_square_negated ty n (dst a : Buffer) :
  length dst = n -> length a = n ->
  Forall (fun c => Fp.valid ty c = true) a ->
  kernel_length_square ty n
    (kernel_scale ty n dst (Fp.static_cast ty minus_one) a)
  = kernel_length_square ty n a.
Proof.
  intros Hd Ha Hv. rewrite (kernel_scale_map ty n dst _ a Hd Ha).
  assert (Hopp : map (Fp.mul ty (Fp.static_cast ty minus_one)) a = map SFopp a).
  { clear Hd Ha. induction Hv as [|x a Hx _ IH]; simpl; [reflexivity|].
    now rewrite Fp_mul_minus_one, IH. }
  rewrite Hopp. unfold kernel_length_square. apply for_range_ext_lt.
  intros i Hi acc.
  rewrite (list_lookup_total_fmap SFopp a i) by lia.
  now rewrite Fp_mul_opp_opp.
Qed.

Lemma Fp_sub_nan_l ty x : Fp.sub ty S754_nan x = S754_nan.
Proof. reflexivity. Qed.
Lemma Fp_sub_nan_r ty x : Fp.sub ty x S754_nan = S754_nan.
Proof. destruct x; reflexivity. Qed.

Lemma kernel_compare_eq_nan ty n eps (lhs rhs : Buffer) :
  (forall i, (i < n)%nat ->
     Fp.is_nan (lhs !!! i) = true \/ Fp.is_nan (rhs !!! i) = true) ->
  kernel_compare_eq ty n eps lhs rhs = true.
Proof.
  intros H. apply kernel_compare_eq_true. intros i Hi. unfold abs_diff.
  destruct (H i Hi) as [Hn|Hn].
  - destruct (lhs !!! i); try discriminate Hn. reflexivity.
  - destruct (rhs !!! i); try discriminate Hn. now rewrite Fp_sub_nan_r.
Qed.

Lemma kernel_compare_eq_inf ty n eps (lhs rhs : Buffer) i :
  (i < n)%nat -> is_inf (lhs !!! i) = true ->
  Fp.is_finite (rhs !!! i) = true -> Fp.is_nan eps = false ->
  kernel_compare_eq ty n eps lhs rhs = false.
Proof.
  intros Hi Hinf Hfin Heps.
  apply (kernel_compare_eq_beyond ty n eps lhs rhs i Hi). unfold abs_diff.
  destruct (lhs !!! i) as [| s | |]; try discriminate Hinf.
  destruct (rhs !!! i) as [s'| | |s' m e]; try discriminate Hfin;
    destruct eps as [se|se| |se me ee]; try discriminate Heps;
    try destruct se; reflexivity.
Qed.

Section StreamMore.
Variable parse_token : scalar_t -> string -> option spec_float.
Variable ty : scalar_t.

Lemma read_loop_failed_noop idx : forall s mat,
  failbit s = true ->
  fst (fold_left (fun acc k => read_body parse_token ty k acc) idx (s, mat))
  = s.
Proof.
  induction idx as [|k idx IH]; intros s mat Hf; cbn [fold_left];
    [reflexivity|].
  unfold read_body at 2, extract. rewrite Hf. now apply IH.
Qed.

Lemma rshift_writes_all (dst : Matrix4) (mat : Buffer) :
  length (elements dst) = 16%nat ->
  fold_left (fun dst '(row, col, k) => mat_set dst row col (mat !!! k))
    rshift_assignments dst
  = {| elements := column_major mat |}.
Proof.
  intros Hlen. destruct dst as [els]. simpl in Hlen.
  do 16 (destruct els as [|? els]; [discriminate Hlen|]).
  destruct els; [|discriminate Hlen]. reflexivity.
Qed.

Lemma operator_rshift_good indeterminate s dst vs :
  parse_sixteen parse_token ty s = Some vs ->
  length (elements dst) = 16%nat ->
  operator_rshift parse_token ty indeterminate s dst
  = ({| tokens := drop 16 (tokens s); failbit := false |},
     {| elements := column_major vs |}).
Proof.
  intros Hsome Hlen. unfold parse_sixteen in Hsome.
  destruct (failbit s) eqn:Hf; [discriminate Hsome|].
  unfold operator_rshift, extract_all, for_range.
  pose proof (read_loop_parsed parse_token ty BUFFER_SIZE 0%nat s []
                (map indeterminate (seq 0 BUFFER_SIZE)) vs Hf Hsome
                eq_refl eq_refl) as Hread.
  change ([] ++ ?l) with l in Hread. rewrite Hread.
  cbn [failbit negb]. now rewrite rshift_writes_all.
Qed.

Lemma operator_rshift_noop indeterminate s dst :
  failbit s = true ->
  operator_rshift parse_token ty indeterminate s dst = (s, dst).
Proof.
  intros Hf. unfold operator_rshift, extract_all, for_range.
  pose proof (read_loop_failed_noop (seq 0 BUFFER_SIZE) s
                (map indeterminate (seq 0 BUFFER_SIZE)) Hf) as Hs.
  destruct (fold_left _ _ _) as [s' mat']. cbn [fst] in Hs. subst s'.
  rewrite Hf. reflexivity.
Qed.
End StreamMore.

(** ** Elementwise kernels *)

(** X1: the sum kernels are commutative in their operands: [add(a, b)] and
    [add(b, a)] write the same values, for four and for two components
    (NaN being one value: its payload bits are no part of [spec_float]). *)
Theorem add_commutative (ty : scalar_t) (dst a b : Buffer) :
  kernel_add_vec4 ty dst a b = kernel_add_vec4 ty dst b a
  /\ kernel_add_vec2 ty dst a b = kernel_add_vec2 ty dst b a.
Proof.
  split; [unfold kernel_add_vec4 | unfold kernel_add_vec2];
    apply kernel_add_comm.
Qed.

(** X2: the Hadamard kernels are commutative in their operands. *)
Theorem hadamard_commutative (ty : scalar_t) (dst a b : Buffer) :
  kernel_hadamard_vec4 ty dst a b = kernel_hadamard_vec4 ty dst b a
  /\ kernel_hadamard_vec2 ty dst a b = kernel_hadamard_vec2 ty dst b a.
Proof.
  split; [unfold kernel_hadamard_vec4 | unfold kernel_hadamard_vec2];
    apply kernel_hadamard_comm.
Qed.

(** X3: on four-component buffers the sum, difference and Hadamard kernels
    overwrite every component of [dst]: the result is the componentwise
    sum, difference or product of the operands, whatever [dst] held. *)
Theorem elementwise_overwrite (ty : scalar_t) (dst lhs rhs : Buffer) :
  length dst = 4%nat -> length lhs = 4%nat -> length rhs = 4%nat ->
  kernel_add_vec4 ty dst lhs rhs = zip_with (Fp.add ty) lhs rhs
  /\ kernel_sub_vec4 ty dst lhs rhs = zip_with (Fp.sub ty) lhs rhs
  /\ kernel_hadamard_vec4 ty dst lhs rhs = zip_with (Fp.mul ty) lhs rhs.
Proof.
  intros Hd Hl Hr. repeat split.
  - now apply kernel_add_zip.
  - now apply kernel_sub_zip.
  - now apply kernel_hadamard_zip.
Qed.

Lemma elementwise_overwrite_witness :
  length all_nan = 4%nat
  /\ length one_two_three_four = 4%nat
  /\ length inf_then_zeros = 4%nat
  /\ kernel_add_vec4 Float64 all_nan one_two_three_four inf_then_zeros
     = zip_with (Fp.add Float64) one_two_three_four inf_then_zeros.
Proof.
  repeat (split; [reflexivity|]).
  apply (elementwise_overwrite Float64 all_nan one_two_three_four
           inf_then_zeros); reflexivity.
Defined.

(** X4: subtracting a vector of finite components from itself gives the
    vector of positive zeros, exactly. *)
Theorem sub_self_is_zero (ty : scalar_t) (dst a : Buffer) :
  length dst = 4%nat -> length a = 4%nat ->
  Forall (fun c => Fp.is_finite c = true) a ->
  kernel_sub_vec4 ty dst a a = replicate 4 Fp.zero.
Proof.
  intros Hd Ha Hfin. unfold kernel_sub_vec4, VECTOR_SIZE_4.
  rewrite (kernel_sub_zip ty _ dst a a Hd Ha Ha), (zip_sub_self ty a Hfin).
  now rewrite Ha.
Qed.

Lemma sub_self_is_zero_witness :
  length all_nan = 4%nat
  /\ length one_two_three_four = 4%nat
  /\ Forall (fun c => Fp.is_finite c = true) one_two_three_four
  /\ kernel_sub_vec4 Float64 all_nan one_two_three_four one_two_three_four
     = replicate 4 Fp.zero.
Proof.
  assert (Hfin : Forall (fun c => Fp.is_finite c = true) one_two_three_four)
    by (repeat constructor).
  repeat (split; [first [reflexivity | assumption]|]).
  apply (sub_self_is_zero Float64 all_nan one_two_three_four);
    first [reflexivity | assumption].
Defined.

(** X5: scaling by [s] is the Hadamard product with the vector whose
    components all are [s]. *)
Theorem scale_is_hadamard_with_splat (ty : scalar_t) (dst : Buffer)
    (s : spec_float) (a : Buffer) :
  kernel_scale_vec4 ty dst s a
  = kernel_hadamard_vec4 ty dst (replicate 4 s) a
  /\ kernel_scale_vec2 ty dst s a
     = kernel_hadamard_vec2 ty dst (replicate 2 s) a.
Proof.
  split; [unfold kernel_scale_vec4, kernel_hadamard_vec4
         | unfold kernel_scale_vec2, kernel_hadamard_vec2];
    apply kernel_scale_as_hadamard.
Qed.

(** ** Accumulating kernels *)

(** X7: the squared length is never negative: its sign bit is clear, or it
    is NaN; so [normalize] never takes the square root of a negative
    number. *)
Theorem length_square_not_negative (ty : scalar_t) (v : Buffer) :
  not_negative (kernel_length_square_vec4 ty v) = true
  /\ not_negative (kernel_length_square_vec2 ty v) = true.
Proof.
  split; [unfold kernel_length_square_vec4 | unfold kernel_length_square_vec2];
    apply kernel_length_square_not_negative.
Qed.

(** X8: one NaN component makes the squared length NaN, and the dot
    product with any vector NaN, on either side. *)
Theorem nan_component_poisons (ty : scalar_t) (v w : Buffer) (j : nat) :
  (j < 4)%nat -> v !!! j = S754_nan ->
  kernel_length_square_vec4 ty v = S754_nan
  /\ kernel_dot_vec4 ty v w = S754_nan
  /\ kernel_dot_vec4 ty w v = S754_nan.
Proof.
  intros Hj Hv. unfold kernel_length_square_vec4, kernel_dot_vec4.
  split; [|split].
  - now apply (kernel_length_square_nan ty _ v j).
  - now apply (kernel_dot_nan_l ty _ v w j).
  - rewrite kernel_dot_comm. now apply (kernel_dot_nan_l ty _ v w j).
Qed.

Lemma nan_component_poisons_witness :
  (0 < 4)%nat
  /\ nan_inf_one_zero !!! 0%nat = S754_nan
  /\ kernel_dot_vec4 Float32 nan_inf_one_zero inf_then_zeros = S754_nan.
Proof.
  split; [lia|]. split; [reflexivity|].
  apply (nan_component_poisons Float32 nan_inf_one_zero inf_then_zeros 0);
    [lia | reflexivity].
Defined.

(** X9: negating a vector (scaling it by -1) leaves its squared length
    unchanged, exactly. *)
Theorem length_square_of_negated (ty : scalar_t) (dst a : Buffer) :
  length dst = 4%nat -> length a = 4%nat ->
  Forall (fun c => Fp.valid ty c = true) a ->
  kernel_length_square_vec4 ty
    (kernel_scale_vec4 ty dst (Fp.static_cast ty minus_one) a)
  = kernel_length_square_vec4 ty a.
Proof.
  intros Hd Ha Hv. unfold kernel_length_square_vec4, kernel_scale_vec4.
  now apply kernel_length_square_negated.
Qed.

Lemma length_square_of_negated_witness :
  length all_nan = 4%nat
  /\ length one_two_three_four = 4%nat
  /\ Forall (fun c => Fp.valid Float64 c = true) one_two_three_four
  /\ kernel_length_square_vec4 Float64
       (kernel_scale_vec4 Float64 all_nan (Fp.static_cast Float64 minus_one)
          one_two_three_four)
     = kernel_length_square_vec4 Float64 one_two_three_four.
Proof.
  assert (Hv : Forall (fun c => Fp.valid Float64 c = true) one_two_three_four)
    by (repeat constructor).
  repeat (split; [first [reflexivity | assumption]|]).
  apply (length_square_of_negated Float64 all_nan one_two_three_four);
    first [reflexivity | assumption].
Defined.

(** X10: the dot product of a vector of finite components with the zero
    vector is positive zero, exactly. *)
Theorem dot_with_zero_vector (ty : scalar_t) (a : Buffer) :
  length a = 4%nat -> Forall (fun c => Fp.is_finite c = true) a ->
  kernel_dot_vec4 ty a (replicate 4 Fp.zero) = S754_zero false.
Proof.
  intros Ha Hfin. unfold kernel_dot_vec4. now apply kernel_dot_zero_r.
Qed.

Lemma dot_with_zero_vector_witness :
  length one_two_three_four = 4%nat
  /\ Forall (fun c => Fp.is_finite c = true) one_two_three_four
  /\ kernel_dot_vec4 Float64 one_two_three_four (replicate 4 Fp.zero)
     = S754_zero false.
Proof.
  assert (Hfin : Forall (fun c => Fp.is_finite c = true) one_two_three_four)
    by (repeat constructor).
  split; [reflexivity|]. split; [assumption|].
  apply (dot_with_zero_vector Float64 one_two_three_four);
    first [reflexivity | assumption].
Defined.

(** ** Normalisation *)

(** X11: normalising divides every component the vector had on entry by
    one and the same length, the square root of the squared length taken
    before the first component is overwritten. *)
Theorem normalize_divides_by_initial_length (ty : scalar_t) (v : Buffer) :
  length v = 4%nat ->
  kernel_normalize_in_place_vec4 ty v
  = map (fun c => Fp.div ty c (Fp.sqrt ty (kernel_length_square_vec4 ty v))) v.
Proof.
  intros Hlen. unfold kernel_normalize_in_place_vec4, kernel_length_square_vec4.
  now apply kernel_normalize_map.
Qed.

Lemma normalize_divides_by_initial_length_witness :
  length one_two_three_four = 4%nat
  /\ kernel_normalize_in_place_vec4 Float64 one_two_three_four
     = map (fun c => Fp.div Float64 c
                       (Fp.sqrt Float64
                          (kernel_length_square_vec4 Float64
                             one_two_three_four)))
         one_two_three_four.
Proof.
  split; [reflexivity|].
  apply (normalize_divides_by_initial_length Float64 one_two_three_four).
  reflexivity.
Defined.

(** X12: normalising a vector with a NaN component makes every component
    NaN. *)
Theorem normalize_nan_component (ty : scalar_t) (v : Buffer) (j : nat) :
  length v = 4%nat -> (j < 4)%nat -> v !!! j = S754_nan ->
  kernel_normalize_in_place_vec4 ty v = replicate 4 S754_nan.
Proof.
  intros Hlen Hj Hv. unfold kernel_normalize_in_place_vec4.
  now apply (kernel_normalize_nan ty _ v j).
Qed.

Lemma normalize_nan_component_witness :
  length nan_inf_one_zero = 4%nat
  /\ (0 < 4)%nat
  /\ nan_inf_one_zero !!! 0%nat = S754_nan
  /\ kernel_normalize_in_place_vec4 Float32 nan_inf_one_zero
     = replicate 4 S754_nan.
Proof.
  split; [reflexivity|]. split; [lia|]. split; [reflexivity|].
  apply (normalize_nan_component Float32 nan_inf_one_zero 0);
    [reflexivity | lia | reflexivity].
Defined.

(** ** Approximate equality *)

(** X13: the comparison kernels are symmetric in their operands. *)
Theorem compare_eq_symmetric (EPS : spec_float)
    (EPS_T : scalar_t -> spec_float) (ty : scalar_t) (a b : Buffer) :
  kernel_compare_eq_vec4 EPS ty a b = kernel_compare_eq_vec4 EPS ty b a
  /\ kernel_compare_eq_vec2 EPS_T ty a b = kernel_compare_eq_vec2 EPS_T ty b a.
Proof.
  split; [unfold kernel_compare_eq_vec4 | unfold kernel_compare_eq_vec2];
    apply kernel_compare_eq_sym.
Qed.

(** X14: a NaN on either side of every component pair makes the comparison
    answer [true], whatever the other side and the tolerance are. *)
Theorem compare_eq_nan_equals_anything (EPS : spec_float) (ty : scalar_t)
    (lhs rhs : Buffer) :
  (forall i, (i < 4)%nat ->
     Fp.is_nan (lhs !!! i) = true \/ Fp.is_nan (rhs !!! i) = true) ->
  kernel_compare_eq_vec4 EPS ty lhs rhs = true.
Proof.
  intros H. unfold kernel_compare_eq_vec4. now apply kernel_compare_eq_nan.
Qed.

Lemma compare_eq_nan_equals_anything_witness :
  (forall i, (i < 4)%nat ->
     Fp.is_nan (all_nan !!! i) = true
     \/ Fp.is_nan (one_two_three_four !!! i) = true)
  /\ kernel_compare_eq_vec4 EPS_nominal Float64 all_nan one_two_three_four
     = true.
Proof.
  assert (H : forall i, (i < 4)%nat ->
                Fp.is_nan (all_nan !!! i) = true
                \/ Fp.is_nan (one_two_three_four !!! i) = true).
  { intros i Hi. left. do 4 (destruct i as [|i]; [reflexivity|]). lia. }
  split; [exact H|].
  apply (compare_eq_nan_equals_anything EPS_nominal Float64 all_nan
           one_two_three_four H).
Defined.

(** X15: an infinite component against a finite one makes the comparison
    answer [false], in either order, the tolerance being a number. *)
Theorem compare_eq_infinite_differs (EPS : spec_float) (ty : scalar_t)
    (lhs rhs : Buffer) (i : nat) :
  (i < 4)%nat -> is_inf (lhs !!! i) = true ->
  Fp.is_finite (rhs !!! i) = true ->
  Fp.is_nan (Fp.static_cast ty EPS) = false ->
  kernel_compare_eq_vec4 EPS ty lhs rhs = false
  /\ kernel_compare_eq_vec4 EPS ty rhs lhs = false.
Proof.
  intros Hi Hinf Hfin Heps. unfold kernel_compare_eq_vec4.
  rewrite (kernel_compare_eq_sym ty _ _ rhs lhs).
  split; now apply (kernel_compare_eq_inf ty _ _ lhs rhs i).
Qed.

Lemma compare_eq_infinite_differs_witness :
  (0 < 4)%nat
  /\ is_inf (inf_then_zeros !!! 0%nat) = true
  /\ Fp.is_finite (one_two_three_four !!! 0%nat) = true
  /\ Fp.is_nan (Fp.static_cast Float64 EPS_nominal) = false
  /\ kernel_compare_eq_vec4 EPS_nominal Float64 inf_then_zeros
       one_two_three_four = false.
Proof.
  split; [lia|]. repeat (split; [reflexivity|]).
  apply (compare_eq_infinite_differs EPS_nominal Float64 inf_then_zeros
           one_two_three_four 0); [lia | reflexivity ..].
Defined.

(** ** The stream operator *)

(** X16: on a good stream whose next sixteen tokens all parse,
    [operator>>] consumes exactly those sixteen tokens, leaves the stream
    good, and overwrites all sixteen elements: the matrix holds the values
    read, row after row, whatever it held before and whatever the local
    array held. *)
Theorem rshift_reads_sixteen
    (parse_token : scalar_t -> string -> option spec_float) (ty : scalar_t)
    (indeterminate : nat -> spec_float) (s : istream) (dst : Matrix4)
    (vs : Buffer) :
  parse_sixteen parse_token ty s = Some vs ->
  length (elements dst) = 16%nat ->
  operator_rshift parse_token ty indeterminate s dst
  = ({| tokens := drop 16 (tokens s); failbit := false |},
     {| elements := column_major vs |}).
Proof. apply operator_rshift_good. Qed.

Lemma rshift_reads_sixteen_witness :
  parse_sixteen parse_decimal_token Float32 sixteen_tokens
  = Some (snd (extract_all parse_decimal_token Float32 sixteen_tokens
                 (replicate 16 S754_nan)))
  /\ length (elements Matrix4_default) = 16%nat
  /\ fst (operator_rshift parse_decimal_token Float32 (fun _ => S754_nan)
            sixteen_tokens Matrix4_default)
     = {| tokens := []; failbit := false |}.
Proof.
  split; [reflexivity|]. split; [reflexivity|].
  rewrite (rshift_reads_sixteen parse_decimal_token Float32
             (fun _ => S754_nan) sixteen_tokens Matrix4_default
             (snd (extract_all parse_decimal_token Float32 sixteen_tokens
                     (replicate 16 S754_nan)))
             eq_refl eq_refl).
  reflexivity.
Defined.

(** X17: on a stream that has already failed, [operator>>] extracts no
    token: the tokens to be read are the ones that were there, the stream
    is still failed, and the matrix is as it was.  (The stream's format
    flags, which line 197 sets, are no part of [istream].) *)
Theorem rshift_failed_stream_reads_nothing
    (parse_token : scalar_t -> string -> option spec_float) (ty : scalar_t)
    (indeterminate : nat -> spec_float) (s : istream) (dst : Matrix4) :
  failbit s = true ->
  tokens (fst (operator_rshift parse_token ty indeterminate s dst)) = tokens s
  /\ failbit (fst (operator_rshift parse_token ty indeterminate s dst)) = true
  /\ snd (operator_rshift parse_token ty indeterminate s dst) = dst.
Proof.
  intros Hf. rewrite (operator_rshift_noop parse_token ty indeterminate s dst Hf).
  cbn [fst snd]. split; [reflexivity|]. split; [exact Hf | reflexivity].
Qed.

Lemma rshift_failed_stream_reads_nothing_witness :
  failbit failed_stream = true
  /\ tokens (fst (operator_rshift parse_decimal_token Float32
                    (fun _ => S754_nan) failed_stream Matrix4_default))
     = tokens failed_stream
  /\ snd (operator_rshift parse_decimal_token Float32 (fun _ => S754_nan)
            failed_stream Matrix4_default)
     = Matrix4_default.
Proof.
  split; [reflexivity|].
  destruct (rshift_failed_stream_reads_nothing parse_decimal_token Float32
              (fun _ => S754_nan) failed_stream Matrix4_default eq_refl)
    as (Htok & _ & Hdst).
  split; [exact Htok | exact Hdst].
Defined.

(** ** Edge cases of scaling and adding *)

Lemma Fp_mul_zero_non_finite ty x :
  Fp.is_finite x = false ->
  Fp.mul ty (Fp.static_cast ty Fp.zero) x = S754_nan.
Proof. destruct ty, x; simpl; try discriminate; reflexivity. Qed.

(** X19: [scale(0, a)] is NaN, not zero, at every component where [a] is
    infinite or NaN. *)
Theorem scale_zero_non_finite (ty : scalar_t) (dst a : Buffer) (i : nat) :
  length dst = 4%nat -> length a = 4%nat -> (i < 4)%nat ->
  Fp.is_finite (a !!! i) = false ->
  kernel_scale_vec4 ty dst (Fp.static_cast ty Fp.zero) a !!! i = S754_nan.
Proof.
  intros Hd Ha Hi Hnf. unfold kernel_scale_vec4, VECTOR_SIZE_4.
  rewrite (kernel_scale_map ty _ dst _ a Hd Ha).
  rewrite (list_lookup_total_fmap _ a i) by lia.
  now apply Fp_mul_zero_non_finite.
Qed.

Lemma scale_zero_non_finite_witness :
  length all_nan = 4%nat
  /\ length inf_then_zeros = 4%nat
  /\ (0 < 4)%nat
  /\ Fp.is_finite (inf_then_zeros !!! 0%nat) = false
  /\ kernel_scale_vec4 Float64 all_nan (Fp.static_cast Float64 Fp.zero)
       inf_then_zeros !!! 0%nat = S754_nan.
Proof.
  split; [reflexivity|]. split; [reflexivity|]. split; [lia|].
  split; [reflexivity|].
  apply (scale_zero_non_finite Float64 all_nan inf_then_zeros 0);
    [reflexivity | reflexivity | lia | reflexivity].
Defined.

Lemma zip_with_replicate_r (g : spec_float -> spec_float -> spec_float)
    (a : Buffer) z :
  zip_with g a (replicate (length a) z) = map (fun x => g x z) a.
Proof. induction a as [|x a IH]; simpl; [reflexivity | now rewrite IH]. Qed.

Lemma Fp_add_zero_r ty x :
  x <> S754_zero true -> Fp.add ty x Fp.zero = x.
Proof.
  intros Hx. destruct x as [s|s| |s m e]; try reflexivity.
  destruct s; [contradiction | reflexivity].
Qed.

Lemma Fp_ge_add_zero ty eps x :
  Fp.lt Fp.zero eps = true ->
  Fp.ge (Fp.abs (Fp.sub ty (Fp.add ty x Fp.zero) x)) eps = false.
Proof.
  intros Hpos. destruct x as [[|]|s| |s m e];
    try (now apply Fp_ge_zero_pos);
    rewrite Fp_add_zero_r by discriminate; now apply Fp_ge_abs_sub_diag.
Qed.

(** X20: adding the vector of positive zeros gives the vector back except
    that a negative zero becomes positive: the sum is [a] itself when no
    component is -0, and it compares equal to [a] for every [a], the
    tolerance being positive. *)
Theorem add_zero_vector (EPS : spec_float) (ty : scalar_t) (dst a : Buffer) :
  length dst = 4%nat -> length a = 4%nat ->
  Fp.lt Fp.zero (Fp.static_cast ty EPS) = true ->
  kernel_compare_eq_vec4 EPS ty
    (kernel_add_vec4 ty dst a (replicate 4 Fp.zero)) a = true
  /\ (Forall (fun c => c <> S754_zero true) a ->
      kernel_add_vec4 ty dst a (replicate 4 Fp.zero) = a).
Proof.
  intros Hd Ha Hpos.
  assert (Hsum : kernel_add_vec4 ty dst a (replicate 4 Fp.zero)
                 = map (fun x => Fp.add ty x Fp.zero) a).
  { unfold kernel_add_vec4, VECTOR_SIZE_4.
    rewrite (kernel_add_zip ty _ dst a _ Hd Ha (length_replicate _ _)).
    rewrite <- Ha at 1. apply zip_with_replicate_r. }
  rewrite Hsum. split.
  - unfold kernel_compare_eq_vec4. apply kernel_compare_eq_true.
    intros i Hi. unfold abs_diff.
    rewrite (list_lookup_total_fmap _ a i) by (unfold VECTOR_SIZE_4 in Hi; lia).
    now apply Fp_ge_add_zero.
  - intros Hnz. clear Hsum Ha. induction Hnz as [|x a Hx _ IH]; simpl;
      [reflexivity|].
    now rewrite Fp_add_zero_r, IH.
Qed.

Lemma add_zero_vector_witness :
  length all_nan = 4%nat
  /\ length nan_inf_one_zero = 4%nat
  /\ Fp.lt Fp.zero (Fp.static_cast Float32 EPS_nominal) = true
  /\ kernel_compare_eq_vec4 EPS_nominal Float32
       (kernel_add_vec4 Float32 all_nan nan_inf_one_zero
          (replicate 4 Fp.zero))
       nan_inf_one_zero = true.
Proof.
  repeat (split; [reflexivity|]).
  apply (add_zero_vector EPS_nominal Float32 all_nan nan_inf_one_zero);
    reflexivity.
Defined.

(** ** Reading two matrices in a row *)

(** X21: two extractions in a row from a good stream whose next thirty-two
    tokens parse fill the first matrix from tokens 0 to 15 and the second
    from tokens 16 to 31, and leave the stream good behind token 31. *)
Theorem rshift_twice
    (parse_token : scalar_t -> string -> option spec_float) (ty : scalar_t)
    (ind1 ind2 : nat -> spec_float) (s : istream) (dst1 dst2 : Matrix4)
    (vs1 vs2 : Buffer) :
  failbit s = false ->
  parse_tokens parse_token ty 16 (tokens s) = Some vs1 ->
  parse_tokens parse_token ty 16 (drop 16 (tokens s)) = Some vs2 ->
  length (elements dst1) = 16%nat -> length (elements dst2) = 16%nat ->
  operator_rshift parse_token ty ind2
    (fst (operator_rshift parse_token ty ind1 s dst1)) dst2
  = ({| tokens := drop 32 (tokens s); failbit := false |},
     {| elements := column_major vs2 |})
  /\ snd (operator_rshift parse_token ty ind1 s dst1)
     = {| elements := column_major vs1 |}.
Proof.
  intros Hf H1 H2 Hd1 Hd2.
  rewrite (operator_rshift_good parse_token ty ind1 s dst1 vs1);
    [|unfold parse_sixteen; rewrite Hf; exact H1|exact Hd1].
  cbn [fst snd]. split; [|reflexivity].
  rewrite (operator_rshift_good parse_token ty ind2 _ dst2 vs2);
    [|exact H2|exact Hd2].
  cbn [tokens]. rewrite drop_drop. reflexivity.
Qed.

Lemma rshift_twice_witness :
  failbit thirty_two_tokens = false
  /\ parse_tokens parse_decimal_token Float32 16 (tokens thirty_two_tokens)
     = Some sixteen_values
  /\ parse_tokens parse_decimal_token Float32 16
       (drop 16 (tokens thirty_two_tokens))
     = Some sixteen_values
  /\ length (elements Matrix4_default) = 16%nat
  /\ snd (operator_rshift parse_decimal_token Float32 (fun _ => S754_nan)
            thirty_two_tokens Matrix4_default)
     = {| elements := column_major sixteen_values |}.
Proof.
  repeat (split; [reflexivity|]).
  apply (proj2 (rshift_twice parse_decimal_token Float32
                  (fun _ => S754_nan) (fun _ => S754_nan) thirty_two_tokens
                  Matrix4_default Matrix4_default sixteen_values
                  sixteen_values eq_refl eq_refl eq_refl eq_refl eq_refl)).
Defined.
